(** * XMLValidator: the diagnostic parser and the validation calls

    A shallow embedding of [src/XMLValidator.ts].  JavaScript strings are
    sequences of UTF-16 code units, so a string is a [list N] here; the
    regular expression of [parseValidationErrors] is run by a small
    backtracking matcher; the file system, the clock and the subprocess
    are an explicit state and an environment of oracles. *)

From Stdlib Require Import NArith List Bool Lia.
From Stdlib Require Strings.String Strings.Ascii.
From Stdlib Require Import DecimalString DecimalN DecimalFacts.
From stdpp Require Import gmap list.
Import String.StringSyntax.
Delimit Scope string_scope with string.

(** ** Strings *)

Abbreviation JsString := (list N) (only parsing).

(** A literal: each character of the Rocq string is one code unit. *)
Fixpoint js (s : String.string) : JsString :=
  match s with
  | String.EmptyString => []
  | String.String a s' => Ascii.N_of_ascii a :: js s'
  end.
Arguments js s%_string.

(** [Boolean(s)] for a string [s]: only the empty string is falsy. *)
Definition truthy (s : JsString) : bool :=
  match s with
  | [] => false
  | _ :: _ => true
  end.

(** ECMAScript LineTerminator: LF, CR, LS, PS. *)
Definition isLineTerminator (c : N) : bool :=
  ((c =? 10) || (c =? 13) || (c =? 8232) || (c =? 8233))%N.

(** ECMAScript WhiteSpace and LineTerminator, the set stripped by
    [String.prototype.trim]: TAB, VT, FF, SP, NBSP, ZWNBSP, the Unicode
    space separators, and the line terminators. *)
Definition isWhiteSpace (c : N) : bool :=
  ((c =? 9) || (c =? 11) || (c =? 12) || (c =? 32) || (c =? 160)
   || (c =? 5760) || ((8192 <=? c) && (c <=? 8202)) || (c =? 8239)
   || (c =? 8287) || (c =? 12288) || (c =? 65279)
   || isLineTerminator c)%N.

(** [\d] without the unicode flag: the ASCII digits. *)
Definition isDigit (c : N) : bool := ((48 <=? c) && (c <=? 57))%N.

Fixpoint trimStart (s : JsString) : JsString :=
  match s with
  | [] => []
  | c :: s' => if isWhiteSpace c then trimStart s' else s
  end.

Definition trimEnd (s : JsString) : JsString := rev (trimStart (rev s)).

(** [s.trim()] *)
Definition trim (s : JsString) : JsString := trimEnd (trimStart s).

Definition LF : N := 10.
Definition colon : N := 58.
Definition space : N := 32.

(** [s.split(sep)] for a separator of one character: always at least
    one piece. *)
Fixpoint splitOn (sep : N) (s : JsString) : list JsString :=
  match s with
  | [] => [[]]
  | c :: s' =>
      if (c =? sep)%N then [] :: splitOn sep s'
      else match splitOn sep s' with
           | piece :: pieces => (c :: piece) :: pieces
           | [] => [[c]]
           end
  end.

(** [s.split('\n')] *)
Definition splitLines (s : JsString) : list JsString := splitOn LF s.

(** ** Numbers *)

(** A JavaScript number that holds a natural number.  Up to 2^53 the
    double is the integer itself; above, it is the double nearest to the
    integer, which is kept here unrounded under [Rounded]. *)
Inductive JsNumber :=
| Exact (n : N)
| Rounded (n : N).

Definition digitValue (c : N) : N := (c - 48)%N.

Definition decimalValue (ds : JsString) : N :=
  fold_left (fun acc c => (10 * acc + digitValue c)%N) ds 0%N.

(** [parseInt(ds, 10)] on a string of decimal digits. *)
Definition parseInt10 (ds : JsString) : JsNumber :=
  let n := decimalValue ds in
  if (n <=? 2 ^ 53)%N then Exact n else Rounded n.

(** ** The regular expression of [parseValidationErrors]

    Three capturing groups: a greedy run of any characters, a colon, one
    or more digits, a colon and a space, a greedy run of any characters. *)

Inductive CharClass :=
| AnyChar      (* the dot: any code unit but a line terminator *)
| DigitChar.   (* backslash-d: an ASCII digit *)

Definition inClass (k : CharClass) (c : N) : bool :=
  match k with
  | AnyChar => negb (isLineTerminator c)
  | DigitChar => isDigit c
  end.

(** The pattern is a sequence of literal characters and of capturing
    groups around a greedy repetition of a class: the starred group has
    [min = 0], the plus group has [min = 1]. *)
Inductive RegexItem :=
| Lit (c : N)
| Group (k : CharClass) (min : nat).

Definition diagnosticPattern : list RegexItem :=
  [Group AnyChar 0; Lit colon; Group DigitChar 1; Lit colon; Lit space;
   Group AnyChar 0].

(** The pattern after its first group. *)
Definition markerPattern : list RegexItem := tail diagnosticPattern.

(** The longest run of characters of class [k] at the head of [s]. *)
Fixpoint runLength (k : CharClass) (s : JsString) : nat :=
  match s with
  | [] => 0
  | c :: s' => if inClass k c then S (runLength k s') else 0
  end.

(** Greedy choice with backtracking: the continuation [f] is tried on
    [j], [j - 1], ... down to [min], and the first success is kept. *)
Fixpoint backtrack {A} (min j : nat) (f : nat -> option A) : option A :=
  if j <? min then None
  else match f j with
       | Some r => Some r
       | None => match j with
                 | 0 => None
                 | S j' => backtrack min j' f
                 end
       end.

(** A match of [r] anchored at the head of [s]; [caps] are the groups
    captured so far, in order. *)
Fixpoint matchHere (r : list RegexItem) (s : JsString) (caps : list JsString)
  : option (list JsString) :=
  match r with
  | [] => Some caps
  | Lit c :: r' =>
      match s with
      | x :: s' => if (x =? c)%N then matchHere r' s' caps else None
      | [] => None
      end
  | Group k min :: r' =>
      backtrack min (runLength k s)
        (fun j => matchHere r' (drop j s) (caps ++ [take j s]))
  end.

(** [s.match(r)] for a regular expression without the global flag: the
    leftmost start position that matches wins.  The result holds the
    capture groups [match[1]], [match[2]], ... *)
Fixpoint regexMatch (r : list RegexItem) (s : JsString) : option (list JsString) :=
  match matchHere r s [] with
  | Some caps => Some caps
  | None => match s with
            | [] => None
            | _ :: s' => regexMatch r s'
            end
  end.

(** ** The diagnostic parser *)

Record ValidationError := {
  file : JsString;
  line : JsNumber;
  message : JsString
}.

(** [true | ValidationError[]] *)
Inductive ValidationResult :=
| JsTrue
| Errors (errors : list ValidationError).

(** The [stderr] property of an error object: missing, a string (as
    [exec] gives it), or a Buffer (as [execSync] gives it), which is
    held by the text its [toString()] yields. *)
Inductive StderrField :=
| NoStderr
| StderrString (s : JsString)
| StderrBuffer (text : JsString).

Record ErrorObject := {
  e_stderr : StderrField;
  e_message : option JsString
}.

(** [Boolean(error.stderr)]: a Buffer is an object, truthy even when empty. *)
Definition stderrTruthy (f : StderrField) : bool :=
  match f with
  | NoStderr => false
  | StderrString s => truthy s
  | StderrBuffer _ => true
  end.

(** [error.stderr.toString()] *)
Definition stderrToString (f : StderrField) : JsString :=
  match f with
  | NoStderr => []
  | StderrString s => s
  | StderrBuffer text => text
  end.

(** [Boolean(error.message)] *)
Definition messageTruthy (m : option JsString) : bool :=
  match m with
  | Some s => truthy s
  | None => false
  end.

(** The text [validationErrors] holds when parsing starts: the three
    assignments of [parseValidationErrors], in the order of the source. *)
Definition selectText (error : option ErrorObject) (stderr : option JsString)
  : JsString :=
  let validationErrors := (* stderr || '' *)
    match stderr with
    | Some s => if truthy s then s else []
    | None => []
    end in
  let validationErrors := (* if (error && error.stderr) *)
    match error with
    | Some e => if stderrTruthy (e_stderr e) then stderrToString (e_stderr e)
                else validationErrors
    | None => validationErrors
    end in
  let validationErrors := (* if (error && error.message) *)
    match error with
    | Some e => if messageTruthy (e_message e) then default [] (e_message e)
                else validationErrors
    | None => validationErrors
    end in
  validationErrors.

(** The callback of [.map]: one record per line. *)
Definition parseLine (l : JsString) : ValidationError :=
  let m := regexMatch diagnosticPattern l in
  {| file := match m with Some caps => nth 0 caps [] | None => [] end;
     line := match m with Some caps => parseInt10 (nth 1 caps []) | None => Exact 0 end;
     message := match m with Some caps => nth 2 caps [] | None => [] end |}.

(** The callback of [.filter]: [errorObj.file && errorObj.message]. *)
Definition keepRecord (r : ValidationError) : bool :=
  truthy (file r) && truthy (message r).

Definition parseText (text : JsString) : ValidationResult :=
  if truthy (trim text)
  then Errors (List.filter keepRecord (map parseLine (splitLines (trim text))))
  else JsTrue.

Definition parseValidationErrors (error : option ErrorObject)
  (stderr : option JsString) : ValidationResult :=
  parseText (selectText error stderr).

(** ** The world of a validation call *)

(** [string | Buffer] *)
Inductive ValidationInput :=
| PathInput (path : JsString)
| BufferInput (bytes : list N).

Record XMLValidator := {
  xsdPath : ValidationInput;
  xmlPath : ValidationInput
}.

Definition isBuffer (i : ValidationInput) : bool :=
  match i with
  | BufferInput _ => true
  | PathInput _ => false
  end.

(** What became of the subprocess.  The error objects are the ones Node
    builds, of which the code reads [stderr] and [message] only:
    [error] is the one [exec] gives, [syncError] the one [execSync]
    throws.  A subprocess that cannot be spawned is reported by [exec]
    in one of two ways: through its callback ([SpawnFailed]: the shell is
    missing or may not be run, no process or descriptor is left), or by
    an exception thrown by [exec] itself before it returns
    ([SpawnThrows]: an argument list too long, a NUL byte in the
    command). *)
Inductive ProcOutcome :=
| ExitZero (stderr : JsString)
| ExitNonZero (error syncError : ErrorObject) (stderr : JsString)
| SpawnFailed (error syncError : ErrorObject)
| SpawnThrows (error syncError : ErrorObject).

(** The surroundings of a call: the temporary directory, the successive
    readings of the clock, the paths at which a write fails (with the
    error it throws), and the outcome of running a command line on a
    given file system. *)
Record Env := {
  tmpdir : JsString;
  dateNow : nat -> N;
  writeError : JsString -> option ErrorObject;
  subprocess : JsString -> gmap (list N) (list N) -> ProcOutcome
}.

(** The state a call acts on: the files (path to content), how many
    times the clock was read, and the paths written so far, oldest
    first. *)
Record World := {
  fs : gmap (list N) (list N);
  clockReads : nat;
  written : list (list N)
}.

Inductive Outcome (A : Type) :=
| Returned (a : A)
| Thrown (e : ErrorObject).
Arguments Returned {A} a.
Arguments Thrown {A} e.

(** Statements that read and change the world, and may throw. *)
Definition Eff (A : Type) : Type := World -> Outcome A * World.

Definition ret {A} (a : A) : Eff A := fun w => (Returned a, w).

Definition bind {A B} (c : Eff A) (k : A -> Eff B) : Eff B :=
  fun w => match c w with
           | (Returned a, w') => k a w'
           | (Thrown e, w') => (Thrown e, w')
           end.

(** [try { body } catch (error) { handler }] *)
Definition tryCatch {A} (body : Eff A) (handler : ErrorObject -> Eff A) : Eff A :=
  fun w => match body w with
           | (Returned a, w') => (Returned a, w')
           | (Thrown e, w') => handler e w'
           end.

Declare Scope eff_scope.
Delimit Scope eff_scope with eff.
Notation "x <- c ;; k" := (bind c (fun x => k))
  (at level 90, c at next level, right associativity) : eff_scope.
Notation "c ;;; k" := (bind c (fun _ => k))
  (at level 90, right associativity) : eff_scope.
Open Scope eff_scope.

(** [String(n)] for an integer below 10^21: its decimal digits. *)
Definition numberToString (n : N) : JsString :=
  js (NilEmpty.string_of_uint (N.to_uint n)).

(** [Date.now()] *)
Definition DateNow (env : Env) : Eff N :=
  fun w => (Returned (dateNow env (clockReads w)),
            {| fs := fs w; clockReads := S (clockReads w); written := written w |}).

(** [writeFileSync(path, buffer)]: creates or replaces the file. *)
Definition writeFileSync (env : Env) (path : JsString) (buffer : list N) : Eff unit :=
  fun w => match writeError env path with
           | Some e => (Thrown e, w)
           | None => (Returned tt,
                      {| fs := <[path := buffer]> (fs w);
                         clockReads := clockReads w;
                         written := written w ++ [path] |})
           end.

(** The error of [unlinkSync] on a path that is not there. *)
Definition ENOENT (path : JsString) : ErrorObject :=
  {| e_stderr := NoStderr;
     e_message := Some (js "ENOENT: no such file or directory, unlink '"
                          ++ path ++ js "'") |}.

(** [unlinkSync(path)]: throws when there is no such file.  The files
    are touched by the call only, so no other failure is modelled. *)
Definition unlinkSync (path : JsString) : Eff unit :=
  fun w => match fs w !! path with
           | None => (Thrown (ENOENT path), w)
           | Some _ => (Returned tt,
                        {| fs := delete path (fs w);
                           clockReads := clockReads w;
                           written := written w |})
           end.

(** [execSync(command, ...)]: returns when the subprocess exits with
    status zero, throws otherwise. *)
Definition execSync (env : Env) (command : JsString) : Eff unit :=
  fun w => match subprocess env command (fs w) with
           | ExitZero _ => (Returned tt, w)
           | ExitNonZero _ e _ => (Thrown e, w)
           | SpawnFailed _ e => (Thrown e, w)
           | SpawnThrows _ e => (Thrown e, w)
           end.

(** [exec(command, callback)]: either [exec] throws, or its callback is
    called, later, with the arguments [error] and [stderr] returned
    here. *)
Definition exec (env : Env) (command : JsString)
  : World -> Outcome (option ErrorObject * JsString) :=
  fun w => match subprocess env command (fs w) with
           | ExitZero stderr => Returned (None, stderr)
           | ExitNonZero e _ stderr => Returned (Some e, stderr)
           | SpawnFailed e _ => Returned (Some e, [])
           | SpawnThrows e _ => Thrown e
           end.

(** ** The methods of [XMLValidator] *)

Definition writeTempFile (env : Env) (buffer : list N) : Eff JsString :=
  let tmpDir := tmpdir env in
  now <- DateNow env ;;
  let filePath := tmpDir ++ js "/" ++ numberToString now in
  writeFileSync env filePath buffer ;;;
  ret filePath.

Definition getTempPaths (env : Env) (this : XMLValidator) : Eff (JsString * JsString) :=
  tempXsdPath <- match xsdPath this with
                 | BufferInput b => writeTempFile env b
                 | PathInput p => ret p
                 end ;;
  tempXmlPath <- match xmlPath this with
                 | BufferInput b => writeTempFile env b
                 | PathInput p => ret p
                 end ;;
  ret (tempXsdPath, tempXmlPath).

Definition cleanupTempFiles (this : XMLValidator) (tempXsdPath tempXmlPath : JsString)
  : Eff unit :=
  (if isBuffer (xsdPath this) then unlinkSync tempXsdPath else ret tt) ;;;
  (if isBuffer (xmlPath this) then unlinkSync tempXmlPath else ret tt).

(** The template literal of [validate] and [validateSync]. *)
Definition commandLine (tempXsdPath tempXmlPath : JsString) : JsString :=
  js "xmllint --noout --schema " ++ tempXsdPath ++ js " " ++ tempXmlPath.

Definition validateSync (env : Env) (this : XMLValidator) : Eff ValidationResult :=
  paths <- getTempPaths env this ;;
  let command := commandLine paths.1 paths.2 in
  tryCatch
    (execSync env command ;;;
     cleanupTempFiles this paths.1 paths.2 ;;;
     ret JsTrue)
    (fun error =>
       cleanupTempFiles this paths.1 paths.2 ;;;
       ret (parseValidationErrors (Some error) None)).

(** How the promise of [validate] ends: resolved, rejected, or left
    pending because the callback of [exec] threw. *)
Inductive Promise (A : Type) :=
| Resolved (a : A)
| Rejected (e : ErrorObject)
| Uncaught (e : ErrorObject).
Arguments Resolved {A} a.
Arguments Rejected {A} e.
Arguments Uncaught {A} e.

(** [validate]: the executor runs [getTempPaths] and calls [exec]; a
    throw of either rejects the promise, and the callback is then never
    called, so nothing is cleaned up.  The callback cleans up and
    resolves with the parsed outcome, [reject] is never called.  The
    call is followed from its start to the end of the callback, with no
    other call in between. *)
Definition validate (env : Env) (this : XMLValidator)
  : World -> Promise ValidationResult * World :=
  fun w =>
    match getTempPaths env this w with
    | (Thrown e, w1) => (Rejected e, w1)
    | (Returned paths, w1) =>
        let command := commandLine paths.1 paths.2 in
        match exec env command w1 with
        | Thrown e => (Rejected e, w1)
        | Returned args =>
            match cleanupTempFiles this paths.1 paths.2 w1 with
            | (Thrown e, w2) => (Uncaught e, w2)
            | (Returned _, w2) =>
                (Resolved (parseValidationErrors args.1 (Some args.2)), w2)
            end
        end
    end.

(** ** The constructor *)

Definition throw {A} (e : ErrorObject) : Eff A := fun w => (Thrown e, w).

(** [new Error('xmllint is not installed. ...')] *)
Definition notInstalled : ErrorObject :=
  {| e_stderr := NoStderr;
     e_message :=
       Some (js "xmllint is not installed. Please install xmllint to use this library.") |}.

Definition checkXmlLintInstallation (env : Env) : Eff unit :=
  tryCatch (execSync env (js "xmllint --version"))
           (fun error => throw notInstalled).

(** [new XMLValidator(xsd, xml)] *)
Definition newXMLValidator (env : Env) (xsd xml : ValidationInput) : Eff XMLValidator :=
  checkXmlLintInstallation env ;;;
  ret {| xsdPath := xsd; xmlPath := xml |}.

(** ** The command line interface, [cli.js] *)

(** What was printed: by [console.log] or by [console.error]. *)
Inductive ConsoleLine :=
| Log (text : JsString)
| ErrorLog (text : JsString).

(** The terminal: [process.stdout.columns], absent when the output is no
    terminal, and the text [toString()] gives for the double nearest to
    an integer above 2^53, which is not computed here. *)
Record Terminal := {
  columns : option Z;
  roundedText : N -> JsString
}.

(** [s.padEnd(targetLength)]: spaces are added up to the length asked
    for, nothing is cut. *)
Definition padEnd (s : JsString) (targetLength : Z) : JsString :=
  s ++ replicate (Z.to_nat (targetLength - Z.of_nat (length s))) space.

Definition dash : N := 45.

(** [String(z)] for an integer. *)
Definition integerToString (z : Z) : JsString :=
  if (z <? 0)%Z then js "-" ++ numberToString (Z.to_N (- z))
  else numberToString (Z.to_N z).

(** The RangeError of [repeat] on a negative count. *)
Definition rangeError (count : Z) : ErrorObject :=
  {| e_stderr := NoStderr;
     e_message := Some (js "Invalid count value: " ++ integerToString count) |}.

(** ['-'.repeat(count)] *)
Definition repeatDash (count : Z) : Outcome JsString :=
  if (count <? 0)%Z then Thrown (rangeError count)
  else Returned (replicate (Z.to_nat count) dash).

(** [error.line.toString()] *)
Definition lineToString (term : Terminal) (n : JsNumber) : JsString :=
  match n with
  | Exact n => numberToString n
  | Rounded n => roundedText term n
  end.

(** [process.stdout.columns || 80] *)
Definition totalWidthOf (term : Terminal) : Z :=
  match columns term with
  | Some c => if (c =? 0)%Z then 80 else c
  | None => 80
  end.

Definition tableRow (term : Terminal) (fileWidth lineWidth messageWidth : Z)
  (error : ValidationError) : JsString :=
  js "| " ++ padEnd (file error) fileWidth ++ js " | " ++
  padEnd (lineToString term (line error)) lineWidth ++ js " | " ++
  padEnd (message error) messageWidth ++ js " |".

(** [drawErrorsTable(errors)], on what the console holds so far. *)
Definition drawErrorsTable (term : Terminal) (errors : list ValidationError)
  (out : list ConsoleLine) : Outcome unit * list ConsoleLine :=
  let totalWidth := totalWidthOf term in
  let fileWidth := 28%Z in
  let lineWidth := 6%Z in
  let padding := 4%Z in
  let separatorWidth := 6%Z in
  let messageWidth :=
    (totalWidth - (fileWidth + lineWidth + separatorWidth + padding))%Z in
  match repeatDash (totalWidth - padding) with
  | Thrown e => (Thrown e, out)
  | Returned lineSeparator =>
      let header :=
        js "| " ++ padEnd (js "File") fileWidth ++ js " | " ++
        padEnd (js "Line") lineWidth ++ js " | " ++
        padEnd (js "Message") messageWidth ++ js " |" in
      (Returned tt,
       out ++ [Log lineSeparator; Log header; Log lineSeparator]
           ++ map (fun error =>
                     Log (tableRow term fileWidth lineWidth messageWidth error))
                  errors
           ++ [Log lineSeparator])
  end.

(** How a run of the program ends: it runs to its end, [process.exit]
    is called, or an exception is left uncaught. *)
Inductive CliEnd :=
| Completed
| Exited (code : Z)
| Crashed (e : ErrorObject).

(** [console.error('An error occurred:', error.message)] *)
Definition errorOccurred (e : ErrorObject) : ConsoleLine :=
  ErrorLog (js "An error occurred: " ++ default (js "undefined") (e_message e)).

(** [XMLValidatorCLI.validate()], followed to the end of the run. *)
Definition cliValidate (env : Env) (term : Terminal) (xsdArg xmlArg : JsString)
  (w : World) (out : list ConsoleLine) : CliEnd * World * list ConsoleLine :=
  let out := out ++ [Log (js "Validating XML: " ++ xmlArg);
                     Log (js "Using XSD: " ++ xsdArg)] in
  match newXMLValidator env (PathInput xsdArg) (PathInput xmlArg) w with
  | (Thrown e, w1) => (Crashed e, w1, out)
  | (Returned validator, w1) =>
      match validate env validator w1 with
      | (Resolved JsTrue, w2) => (Completed, w2, out ++ [Log (js "XML is valid.")])
      | (Resolved (Errors result), w2) =>
          match drawErrorsTable term result
                  (out ++ [Log (js "XML validation errors:")]) with
          | (Returned _, out') => (Completed, w2, out')
          | (Thrown e, out') => (Completed, w2, out' ++ [errorOccurred e])
          end
      | (Rejected e, w2) => (Completed, w2, out ++ [errorOccurred e])
      | (Uncaught e, w2) => (Crashed e, w2, out)
      end
  end.

(** [!arg] for [process.argv[i]]: a missing or empty argument. *)
Definition argMissing (arg : option JsString) : bool :=
  match arg with
  | Some s => negb (truthy s)
  | None => true
  end.

(** The program: [args] are the arguments from [process.argv[2]] on. *)
Definition cliMain (env : Env) (term : Terminal) (args : list JsString) (w : World)
  : CliEnd * World * list ConsoleLine :=
  let xsdArg := args !! 0 in
  let xmlArg := args !! 1 in
  if argMissing xsdArg || argMissing xmlArg
  then (Exited 1, w, [ErrorLog (js "Usage: node cli.js <xsdPath> <xmlPath>")])
  else cliValidate env term (default [] xsdArg) (default [] xmlArg) w [].

(** ** Markers

    What the specification calls a marker: a colon, one or more digits, a colon
    and a space.  [markerParts s] gives the digits and the text after the
    marker when [s] starts with one. *)

Definition markerParts (s : JsString) : option (JsString * JsString) :=
  match s with
  | [] => None
  | c :: s' =>
      if (c =? colon)%N then
        let n := runLength DigitChar s' in
        if 0 <? n then
          match drop n s' with
          | a :: b :: tl =>
              if (a =? colon)%N && (b =? space)%N then Some (take n s', tl)
              else None
          | _ => None
          end
        else None
      else None
  end.

Definition markerAt (s : JsString) : bool :=
  match markerParts s with
  | Some _ => true
  | None => false
  end.

(** Some marker starts somewhere in [s]. *)
Fixpoint hasMarker (s : JsString) : bool :=
  markerAt s ||
  match s with
  | [] => false
  | _ :: s' => hasMarker s'
  end.

Definition noLineTerminator (s : JsString) : bool :=
  forallb (fun c => negb (isLineTerminator c)) s.

(** [s] is empty or starts with a line terminator. *)
Definition stopsDot (s : JsString) : bool :=
  match s with
  | [] => true
  | c :: _ => isLineTerminator c
  end.

(** [s] is empty or ends with a line terminator. *)
Definition endsWithLineTerminator (s : JsString) : bool := stopsDot (rev s).

(** ** Names used in the statements *)

(** The name [writeTempFile] gives to the file written at the [k]-th
    reading of the clock. *)
Definition tempName (env : Env) (k : nat) : JsString :=
  tmpdir env ++ js "/" ++ numberToString (dateNow env k).

(** The names a call generates, from the state of the clock at its start:
    one per Buffer input, the schema first. *)
Definition tempNames (env : Env) (this : XMLValidator) (w : World) : list JsString :=
  match xsdPath this, xmlPath this with
  | PathInput _, PathInput _ => []
  | BufferInput _, PathInput _ => [tempName env (clockReads w)]
  | PathInput _, BufferInput _ => [tempName env (clockReads w)]
  | BufferInput _, BufferInput _ =>
      [tempName env (clockReads w); tempName env (S (clockReads w))]
  end.

(** The number of raw-content inputs: 0, 1 or 2. *)
Definition bufferCount (this : XMLValidator) : nat :=
  (if isBuffer (xsdPath this) then 1 else 0) +
  (if isBuffer (xmlPath this) then 1 else 0).

(** What [validateSync] returns for an outcome of the subprocess, once
    the temporary files are written and removed. *)
Definition syncResult (o : ProcOutcome) : ValidationResult :=
  match o with
  | ExitZero _ => JsTrue
  | ExitNonZero _ e _ => parseValidationErrors (Some e) None
  | SpawnFailed _ e => parseValidationErrors (Some e) None
  | SpawnThrows _ e => parseValidationErrors (Some e) None
  end.

(** The words of a command line: its pieces between single spaces. *)
Definition words (command : JsString) : list JsString := splitOn space command.

Definition noSpace (s : JsString) : bool := forallb (fun c => negb (c =? space)%N) s.

(** ** Sample inputs *)

(** A failed subprocess whose error object carries only blanks. *)
Definition blankFailure : ErrorObject :=
  {| e_stderr := StderrBuffer (js "  "); e_message := Some [] |}.

(** An error object that carries both texts. *)
Definition bothTexts : ErrorObject :=
  {| e_stderr := StderrString (js "a.xml:1: from stderr");
     e_message := Some (js "b.xml:2: from message") |}.

Definition stderrOnly : ErrorObject :=
  {| e_stderr := StderrBuffer (js "a.xml:1: from stderr"); e_message := None |}.

(** A line with two markers. *)
Definition twoMarkers : JsString := js "a.xml:1: b.xml:2: msg".

(** Two lines, the first with a file and no message. *)
Definition noMessageText : JsString :=
  js "a.xml:3: " ++ LF :: js "b.xml:4: bad".


(** A world with no file, a clock that moves by one millisecond at each
    reading, and a clock that stands still. *)
Definition emptyWorld : World := {| fs := ∅; clockReads := 0; written := [] |}.

Definition tickingClock (k : nat) : N := (1700000000000 + N.of_nat k)%N.

Definition frozenClock (k : nat) : N := 1700000000000%N.

Definition pathsValidator : XMLValidator :=
  {| xsdPath := PathInput (js "schema.xsd"); xmlPath := PathInput (js "doc.xml") |}.

Definition xsdBytes : list N := js "<xs:schema/>".
Definition xmlBytes : list N := js "<doc/>".

Definition buffersValidator : XMLValidator :=
  {| xsdPath := BufferInput xsdBytes; xmlPath := BufferInput xmlBytes |}.

(** The engine exits with status zero after a warning on its error
    stream. *)
Definition warningStderr : JsString :=
  js "doc.xml:3: namespace warning : xmlns: URI x is not absolute"
    ++ LF :: js "doc.xml validates" ++ [LF].

Definition warningEnv : Env :=
  {| tmpdir := js "/tmp";
     dateNow := tickingClock;
     writeError := fun _ => None;
     subprocess := fun _ _ => ExitZero warningStderr |}.

(** No subprocess can be spawned. *)
Definition spawnError : ErrorObject :=
  {| e_stderr := NoStderr; e_message := Some (js "spawn /bin/sh ENOENT") |}.

Definition spawnSyncError : ErrorObject :=
  {| e_stderr := NoStderr; e_message := Some (js "spawnSync /bin/sh ENOENT") |}.

Definition spawnFailsEnv : Env :=
  {| tmpdir := js "/tmp";
     dateNow := tickingClock;
     writeError := fun _ => None;
     subprocess := fun _ _ => SpawnFailed spawnError spawnSyncError |}.

(** The second temporary file cannot be written. *)
Definition diskFull : ErrorObject :=
  {| e_stderr := NoStderr;
     e_message := Some (js "ENOSPC: no space left on device, write") |}.

Fixpoint sameString (a b : JsString) : bool :=
  match a, b with
  | [], [] => true
  | x :: a', y :: b' => (x =? y)%N && sameString a' b'
  | _, _ => false
  end.

Definition secondWriteFailsEnv : Env :=
  {| tmpdir := js "/tmp";
     dateNow := tickingClock;
     writeError := fun path =>
       if sameString path (js "/tmp/1700000000001") then Some diskFull else None;
     subprocess := fun _ _ => ExitZero [] |}.

(** Both readings of the clock fall in the same millisecond. *)
Definition sameMillisecondEnv : Env :=
  {| tmpdir := js "/tmp";
     dateNow := frozenClock;
     writeError := fun _ => None;
     subprocess := fun _ _ => ExitZero [] |}.

(** The argument list is too long: [exec] throws. *)
Definition tooBigError : ErrorObject :=
  {| e_stderr := NoStderr; e_message := Some (js "spawn E2BIG") |}.

Definition tooBigSyncError : ErrorObject :=
  {| e_stderr := NoStderr; e_message := Some (js "spawnSync /bin/sh E2BIG") |}.

Definition spawnThrowsEnv : Env :=
  {| tmpdir := js "/tmp";
     dateNow := tickingClock;
     writeError := fun _ => None;
     subprocess := fun command _ =>
       if sameString command (js "xmllint --version") then ExitZero []
       else SpawnThrows tooBigError tooBigSyncError |}.


Definition notATerminal : Terminal := {| columns := None; roundedText := numberToString |}.

Definition narrowTerminal : Terminal := {| columns := Some 3%Z; roundedText := numberToString |}.


(** * Properties *)

(** ** Trimming *)

Lemma trimStart_nil_iff (s : list N) :
  trimStart s = [] <-> forallb isWhiteSpace s = true.
Proof.
  induction s as [|c s IH]; simpl; [tauto|].
  destruct (isWhiteSpace c); simpl; [exact IH|].
  split; discriminate.
Qed.

Lemma trimStart_head (s : list N) c t :
  trimStart s = c :: t -> isWhiteSpace c = false.
Proof.
  induction s as [|x s IH]; simpl; [discriminate|].
  destruct (isWhiteSpace x) eqn:Hx; [exact IH|].
  intros [= -> _]. exact Hx.
Qed.

Lemma forallb_rev {A} (f : A -> bool) (l : list A) :
  forallb f (rev l) = forallb f l.
Proof.
  induction l as [|x l IH]; simpl; [reflexivity|].
  rewrite forallb_app, IH. simpl. rewrite andb_true_r. apply andb_comm.
Qed.

(** [trim] leaves nothing exactly when every character is white space. *)
Lemma trim_nil_iff (s : list N) :
  trim s = [] <-> forallb isWhiteSpace s = true.
Proof.
  unfold trim, trimEnd. split.
  - intros H. apply (f_equal (@rev N)) in H. rewrite rev_involutive in H.
    simpl in H. apply trimStart_nil_iff in H. rewrite forallb_rev in H.
    destruct (trimStart s) as [|c t] eqn:E.
    + now apply trimStart_nil_iff.
    + apply trimStart_head in E. simpl in H. rewrite E in H. discriminate.
  - intros H. apply trimStart_nil_iff in H. rewrite H. reflexivity.
Qed.

Lemma truthy_true_iff (s : list N) : truthy s = true <-> s <> [].
Proof. destruct s; simpl; split; congruence. Qed.

(** ** The text the parser reads *)

(** C8: when the selected text is empty or all white space, the parser
    returns the success marker [true], whatever the error object, hence
    also after a non-zero exit. *)
Theorem blank_text_is_success (error : option ErrorObject) (stderr : option JsString) :
  forallb isWhiteSpace (selectText error stderr) = true ->
  parseValidationErrors error stderr = JsTrue.
Proof.
  intros H. unfold parseValidationErrors, parseText.
  apply trim_nil_iff in H. rewrite H. reflexivity.
Qed.

Lemma blank_text_is_success_witness :
  forallb isWhiteSpace (selectText (Some blankFailure) None) = true /\
  parseValidationErrors (Some blankFailure) None = JsTrue.
Proof.
  split; [reflexivity|].
  apply (blank_text_is_success (Some blankFailure) None). reflexivity.
Defined.

(** C2, as stated, fails: with a stderr text and a message on the error
    object, the parser reads the message, not the stderr text. *)
Lemma stderr_precedence_counterexample :
  stderrTruthy (e_stderr bothTexts) = true /\
  messageTruthy (e_message bothTexts) = true /\
  selectText (Some bothTexts) None = js "b.xml:2: from message" /\
  selectText (Some bothTexts) None <> stderrToString (e_stderr bothTexts) /\
  parseValidationErrors (Some bothTexts) None =
    Errors [ {| file := js "b.xml"; line := Exact 2; message := js "from message" |} ].
Proof. repeat split; try reflexivity. vm_compute. discriminate. Qed.

(** C2, amended: the message of the error object comes first, then its
    stderr text, then the stderr text given to the parser (or the empty
    string), which is also what is read when there is no error object. *)
Theorem selectText_precedence (error : option ErrorObject) (stderr : option JsString) :
  (forall e m, error = Some e -> e_message e = Some m -> m <> [] ->
     selectText error stderr = m) /\
  (forall e, error = Some e -> messageTruthy (e_message e) = false ->
     stderrTruthy (e_stderr e) = true ->
     selectText error stderr = stderrToString (e_stderr e)) /\
  ((error = None \/
    exists e, error = Some e /\ messageTruthy (e_message e) = false /\
              stderrTruthy (e_stderr e) = false) ->
     selectText error stderr = default [] stderr).
Proof.
  assert (Hraw : (match stderr with
                  | Some s => if truthy s then s else []
                  | None => []
                  end) = default [] stderr).
  { destruct stderr as [[|c s]|]; reflexivity. }
  unfold selectText. repeat split.
  - intros e m -> Hm Hne. rewrite Hm. simpl.
    apply truthy_true_iff in Hne. rewrite Hne. reflexivity.
  - intros e -> Hm Hs. rewrite Hm, Hs. reflexivity.
  - intros [-> | (e & -> & Hm & Hs)].
    + exact Hraw.
    + rewrite Hm, Hs. exact Hraw.
Qed.

Lemma selectText_precedence_witness :
  selectText (Some bothTexts) None = js "b.xml:2: from message" /\
  selectText (Some stderrOnly) None = js "a.xml:1: from stderr" /\
  selectText None (Some (js "c.xml:3: raw")) = js "c.xml:3: raw".
Proof.
  split; [|split].
  - apply (proj1 (selectText_precedence (Some bothTexts) None) bothTexts);
      [reflexivity | reflexivity | discriminate].
  - apply (proj1 (proj2 (selectText_precedence (Some stderrOnly) None)) stderrOnly);
      reflexivity.
  - apply (proj2 (proj2 (selectText_precedence None (Some (js "c.xml:3: raw"))))).
    left. reflexivity.
Defined.

(** ** The regular expression *)

Lemma backtrack_none {A} (min j : nat) (f : nat -> option A) :
  (forall i, i <= j -> f i = None) -> backtrack min j f = None.
Proof.
  induction j as [|j IH]; intros H; simpl.
  - destruct (0 <? min); [reflexivity|]. rewrite (H 0); [reflexivity|lia].
  - destruct (S j <? min); [reflexivity|]. rewrite (H (S j)); [|lia].
    apply IH. intros i Hi. apply H. lia.
Qed.

(** When every shorter choice fails, only the longest one counts. *)
Lemma backtrack_below {A} (min j : nat) (f : nat -> option A) :
  (forall i, i < j -> f i = None) ->
  backtrack min j f = if j <? min then None else f j.
Proof.
  intros H. destruct j as [|j]; simpl.
  - destruct (0 <? min); [reflexivity|]. destruct (f 0); reflexivity.
  - destruct (S j <? min); [reflexivity|]. destruct (f (S j)); [reflexivity|].
    apply backtrack_none. intros i Hi. apply H. lia.
Qed.

(** The greedy choice is the largest length on which the rest matches. *)
Lemma backtrack_found {A} (min j i : nat) (f : nat -> option A) r :
  min <= i <= j -> f i = Some r ->
  (forall i', i < i' <= j -> f i' = None) ->
  backtrack min j f = Some r.
Proof.
  induction j as [|j IH]; intros Hi Hf Habove.
  - assert (i = 0) as -> by lia. simpl.
    destruct (Nat.ltb_spec 0 min); [lia|]. rewrite Hf. reflexivity.
  - simpl. destruct (Nat.ltb_spec (S j) min); [lia|].
    destruct (Nat.eq_dec i (S j)) as [->|Hne].
    + rewrite Hf. reflexivity.
    + rewrite (Habove (S j)); [|lia].
      apply IH; [lia|exact Hf|]. intros i' Hi'. apply Habove. lia.
Qed.

Lemma runLength_le k (s : list N) : runLength k s <= length s.
Proof.
  induction s as [|c s IH]; simpl; [lia|]. destruct (inClass k c); simpl; lia.
Qed.

(** Inside the run, every suffix starts with a character of the class. *)
Lemma runLength_drop k (s : list N) i :
  i < runLength k s ->
  exists c t, drop i s = c :: t /\ inClass k c = true.
Proof.
  revert i. induction s as [|c s IH]; simpl; intros i Hi; [lia|].
  destruct (inClass k c) eqn:Hc; [|lia].
  destruct i as [|i]; simpl.
  - eauto.
  - apply IH. lia.
Qed.

Lemma runLength_all k (s t : list N) :
  forallb (inClass k) s = true ->
  runLength k (s ++ t) = length s + runLength k t.
Proof.
  induction s as [|c s IH]; simpl; [reflexivity|].
  intros H. apply andb_true_iff in H as [Hc Hs]. rewrite Hc, IH; auto.
Qed.

Ltac chars :=
  unfold isLineTerminator, isDigit, colon, space in *;
  repeat match goal with
         | H : negb _ = true |- _ => apply negb_true_iff in H
         | H : negb _ = false |- _ => apply negb_false_iff in H
         end;
  rewrite ?andb_true_iff, ?orb_true_iff, ?andb_false_iff, ?orb_false_iff,
    ?N.eqb_eq, ?N.eqb_neq, ?N.leb_le, ?N.leb_gt in *;
  lia.

Lemma digit_not_colon c : isDigit c = true -> (c =? colon)%N = false.
Proof. intros H. apply N.eqb_neq. chars. Qed.

Lemma digit_not_terminator c : isDigit c = true -> isLineTerminator c = false.
Proof. intros H. destruct (isLineTerminator c) eqn:E; [|reflexivity]. chars. Qed.

Lemma terminator_not_digit c : isLineTerminator c = true -> isDigit c = false.
Proof. intros H. destruct (isDigit c) eqn:E; [|reflexivity]. chars. Qed.

Lemma terminator_not_colon c : isLineTerminator c = true -> (c =? colon)%N = false.
Proof. intros H. apply N.eqb_neq. chars. Qed.

Lemma terminator_not_space c : isLineTerminator c = true -> (c =? space)%N = false.
Proof. intros H. apply N.eqb_neq. chars. Qed.

(** After the first group, the pattern matches exactly at a marker: the
    second group is the digits, the third the rest up to the next line
    terminator. *)
Lemma matchHere_marker (s : list N) (caps : list (list N)) :
  matchHere markerPattern s caps =
  match markerParts s with
  | Some (ds, tl) => Some ((caps ++ [ds]) ++ [take (runLength AnyChar tl) tl])
  | None => None
  end.
Proof.
  destruct s as [|c s']; [reflexivity|].
  unfold markerPattern, markerParts. simpl.
  destruct (c =? colon)%N; [|reflexivity].
  rewrite backtrack_below.
  2:{ intros i Hi. destruct (runLength_drop _ _ _ Hi) as (x & t & -> & Hx).
      simpl in Hx. rewrite (digit_not_colon _ Hx). reflexivity. }
  destruct (runLength DigitChar s') as [|n] eqn:En; [reflexivity|].
  simpl. destruct (drop (S n) s') as [|a [|b tl]]; try reflexivity.
  - destruct (a =? colon)%N; reflexivity.
  - destruct (a =? colon)%N; [|reflexivity].
    destruct (b =? space)%N; [|reflexivity]. simpl.
    apply backtrack_found with (i := runLength AnyChar tl); [lia|reflexivity|].
    intros i' Hi'. lia.
Qed.

(** A string that starts with a marker has the parts one reads. *)
Lemma markerParts_intro (ds tl : list N) :
  ds <> [] -> forallb isDigit ds = true ->
  markerParts (colon :: ds ++ colon :: space :: tl) = Some (ds, tl).
Proof.
  intros Hne Hds. unfold markerParts.
  rewrite N.eqb_refl.
  rewrite (runLength_all DigitChar ds (colon :: space :: tl) Hds).
  simpl runLength. rewrite Nat.add_0_r.
  assert (0 < length ds) by (destruct ds; [congruence|simpl; lia]).
  destruct (Nat.ltb_spec 0 (length ds)); [|lia].
  rewrite drop_app_length, take_app_length. reflexivity.
Qed.

(** And conversely. *)
Lemma markerParts_elim (s ds tl : list N) :
  markerParts s = Some (ds, tl) ->
  ds <> [] /\ forallb isDigit ds = true /\ s = colon :: ds ++ colon :: space :: tl.
Proof.
  destruct s as [|c s']; [discriminate|]. unfold markerParts.
  destruct (N.eqb_spec c colon) as [->|]; [|discriminate].
  destruct (Nat.ltb_spec 0 (runLength DigitChar s')) as [Hn|]; [|discriminate].
  destruct (drop (runLength DigitChar s') s') as [|a [|b t]] eqn:Ed; try discriminate.
  destruct (N.eqb_spec a colon) as [->|]; [|discriminate].
  destruct (N.eqb_spec b space) as [->|]; [|discriminate].
  simpl. intros [= <- <-]. split; [|split].
  - intros E. apply (f_equal (@length N)) in E. rewrite length_take in E.
    pose proof (runLength_le DigitChar s'). simpl in E. lia.
  - apply forallb_forall. intros x Hx. apply list_elem_of_In in Hx.
    apply list_elem_of_lookup in Hx as [i Hi].
    apply lookup_take_Some in Hi as [Hi Hlt].
    destruct (runLength_drop _ _ _ Hlt) as (y & t' & Hy & Hcl).
    assert (s' !! i = Some y) as Hi'.
    { rewrite <- (Nat.add_0_r i), <- lookup_drop, Hy. reflexivity. }
    rewrite Hi in Hi'. injection Hi' as ->. exact Hcl.
  - f_equal. rewrite <- Ed. symmetry. apply take_drop.
Qed.

(** [hasMarker] says what it should: a marker occurs somewhere. *)
Lemma hasMarker_true_iff (s : list N) :
  hasMarker s = true <->
  exists a ds tl, ds <> [] /\ forallb isDigit ds = true /\
                  s = a ++ colon :: ds ++ colon :: space :: tl.
Proof.
  split.
  - induction s as [|c s IH]; simpl; [discriminate|].
    unfold markerAt. destruct (markerParts (c :: s)) as [[ds tl]|] eqn:E; simpl.
    + intros _. apply markerParts_elim in E as (Hne & Hds & Hs).
      exists [], ds, tl. auto.
    + intros H. destruct (IH H) as (a & ds & tl & Hne & Hds & ->).
      exists (c :: a), ds, tl. auto.
  - intros (a & ds & tl & Hne & Hds & ->).
    induction a as [|x a IH]; simpl.
    + unfold markerAt. rewrite (markerParts_intro ds tl Hne Hds). reflexivity.
    + simpl in IH. rewrite IH. apply orb_true_r.
Qed.

Lemma matchHere_diagnostic (s : list N) :
  matchHere diagnosticPattern s [] =
  backtrack 0 (runLength AnyChar s)
    (fun j => matchHere markerPattern (drop j s) [take j s]).
Proof. reflexivity. Qed.

Lemma regexMatch_here r (s : list N) caps :
  matchHere r s [] = Some caps -> regexMatch r s = Some caps.
Proof. intros H. destruct s; simpl; rewrite H; reflexivity. Qed.

Lemma regexMatch_next r c (s : list N) :
  matchHere r (c :: s) [] = None -> regexMatch r (c :: s) = regexMatch r s.
Proof. intros H. simpl. rewrite H. reflexivity. Qed.

Lemma runLength_app_le k (a b : list N) :
  runLength k (a ++ b) <= length a + runLength k b.
Proof.
  induction a as [|c a IH]; simpl; [lia|]. destruct (inClass k c); lia.
Qed.

Lemma stopsDot_runLength (rest : list N) :
  stopsDot rest = true -> runLength AnyChar rest = 0.
Proof.
  destruct rest as [|c r]; simpl; [reflexivity|]. intros ->. reflexivity.
Qed.

Lemma stopsDot_runLength_digits (t rest : list N) :
  stopsDot rest = true ->
  runLength DigitChar (t ++ rest) = runLength DigitChar t.
Proof.
  intros H. induction t as [|c t IH]; simpl.
  - destruct rest as [|x r]; simpl in *; [reflexivity|].
    rewrite (terminator_not_digit _ H). reflexivity.
  - rewrite IH. reflexivity.
Qed.

(** A marker holds no line terminator, so what comes after one neither
    completes nor spoils a marker that starts before it. *)
Lemma markerAt_app_stop (t rest : list N) :
  stopsDot rest = true -> markerAt (t ++ rest) = markerAt t.
Proof.
  intros H. unfold markerAt, markerParts. destruct t as [|c t]; simpl.
  - destruct rest as [|x r]; simpl in *; [reflexivity|].
    rewrite (terminator_not_colon _ H). reflexivity.
  - destruct (c =? colon)%N; [|reflexivity].
    rewrite (stopsDot_runLength_digits t rest H).
    pose proof (runLength_le DigitChar t) as Hle.
    destruct (0 <? runLength DigitChar t); [|reflexivity].
    rewrite drop_app_le by exact Hle.
    destruct (drop (runLength DigitChar t) t) as [|a [|b tl]]; simpl.
    + destruct rest as [|x [|y r]]; simpl in *; try reflexivity.
      rewrite (terminator_not_colon _ H). reflexivity.
    + destruct rest as [|x r]; simpl in *; [reflexivity|].
      rewrite (terminator_not_space _ H), andb_false_r. reflexivity.
    + destruct ((a =? colon)%N && (b =? space)%N); reflexivity.
Qed.

Lemma hasMarker_drop (s : list N) i :
  hasMarker s = false -> markerAt (drop i s) = false.
Proof.
  revert i. induction s as [|c s IH]; intros i H.
  - rewrite drop_nil. reflexivity.
  - simpl in H. apply orb_false_iff in H as [H1 H2].
    destruct i as [|i]; simpl; [exact H1|]. apply IH, H2.
Qed.

Lemma markerParts_None (s : list N) : markerAt s = false -> markerParts s = None.
Proof. unfold markerAt. destruct (markerParts s); [discriminate|reflexivity]. Qed.

(** No marker starts inside a marker, nor in a text after it that has
    none. *)
Lemma markerAt_inside (ds msg rest : list N) k :
  forallb isDigit ds = true -> hasMarker msg = false -> stopsDot rest = true ->
  k <= length ds + 2 + length msg ->
  markerAt (drop k (ds ++ colon :: space :: msg ++ rest)) = false.
Proof.
  intros Hds Hmsg Hrest Hk.
  destruct (Nat.lt_ge_cases k (length ds)) as [Hlt|Hge].
  - rewrite drop_app_le by lia.
    destruct (drop k ds) as [|d t] eqn:Ed.
    { apply (f_equal (@length N)) in Ed. rewrite length_drop in Ed. simpl in Ed. lia. }
    assert (isDigit d = true) as Hd.
    { rewrite forallb_forall in Hds. apply Hds. apply list_elem_of_In.
      apply (subseteq_drop k ds). rewrite Ed. left. }
    unfold markerAt, markerParts. simpl. rewrite (digit_not_colon _ Hd). reflexivity.
  - rewrite drop_app_ge by lia.
    destruct (k - length ds) as [|[|k']] eqn:Ek; simpl; try reflexivity.
    rewrite drop_app_le by lia. rewrite markerAt_app_stop by exact Hrest.
    apply hasMarker_drop, Hmsg.
Qed.

(** Anchored at the start of a terminator-free stretch, the pattern
    splits at the last marker of the stretch. *)
Lemma matchHere_last_marker (pre ds msg rest : list N) :
  noLineTerminator pre = true ->
  ds <> [] -> forallb isDigit ds = true ->
  noLineTerminator msg = true -> hasMarker msg = false ->
  stopsDot rest = true ->
  matchHere diagnosticPattern (pre ++ colon :: ds ++ colon :: space :: msg ++ rest) []
  = Some [pre; ds; msg].
Proof.
  intros Hpre Hne Hds Hmsg Hno Hrest.
  assert (Hrun : runLength AnyChar (pre ++ colon :: ds ++ colon :: space :: msg ++ rest)
                 = length pre + (1 + (length ds + (2 + length msg)))).
  { rewrite (runLength_all AnyChar pre) by exact Hpre. f_equal.
    change (colon :: ds ++ colon :: space :: msg ++ rest)
      with ([colon] ++ ds ++ [colon; space] ++ msg ++ rest).
    rewrite (runLength_all AnyChar [colon]) by reflexivity.
    rewrite (runLength_all AnyChar ds).
    2:{ apply forallb_forall. intros x Hx. rewrite forallb_forall in Hds.
        simpl. rewrite (digit_not_terminator _ (Hds x Hx)). reflexivity. }
    rewrite (runLength_all AnyChar [colon; space]) by reflexivity.
    rewrite (runLength_all AnyChar msg) by exact Hmsg.
    rewrite (stopsDot_runLength rest Hrest). simpl. lia. }
  rewrite matchHere_diagnostic, Hrun.
  apply backtrack_found with (i := length pre); [lia| |].
  - rewrite drop_app_length, take_app_length, matchHere_marker.
    rewrite markerParts_intro by assumption.
    rewrite (runLength_all AnyChar msg) by exact Hmsg.
    rewrite (stopsDot_runLength rest Hrest), Nat.add_0_r, take_app_length.
    reflexivity.
  - intros i' Hi'. rewrite matchHere_marker.
    rewrite markerParts_None; [reflexivity|].
    rewrite drop_app_ge by lia.
    destruct (i' - length pre) as [|k] eqn:Ek; [lia|]. simpl.
    apply markerAt_inside; try assumption. lia.
Qed.

(** A stretch that holds a line terminator and no marker gives no match
    anchored at its start. *)
Lemma matchHere_no_marker (v1 v2 X : list N) c :
  isLineTerminator c = true -> hasMarker (v1 ++ c :: v2) = false ->
  matchHere diagnosticPattern ((v1 ++ c :: v2) ++ X) [] = None.
Proof.
  intros Hc Hno. rewrite matchHere_diagnostic.
  rewrite <- app_assoc. simpl app.
  apply backtrack_none. intros i Hi.
  pose proof (runLength_app_le AnyChar v1 (c :: v2 ++ X)) as Hle.
  simpl in Hle. rewrite Hc in Hle. simpl in Hle.
  rewrite matchHere_marker, markerParts_None; [reflexivity|].
  rewrite drop_app_le by lia.
  rewrite markerAt_app_stop by exact Hc.
  rewrite <- (markerAt_app_stop _ (c :: v2)) by exact Hc.
  rewrite <- drop_app_le by lia. apply hasMarker_drop, Hno.
Qed.

Lemma endsWithLineTerminator_cons c (s : list N) :
  endsWithLineTerminator (c :: s) = true ->
  (exists v1 x v2, c :: s = v1 ++ x :: v2 /\ isLineTerminator x = true) /\
  endsWithLineTerminator s = true.
Proof.
  unfold endsWithLineTerminator. simpl. intros H.
  destruct (rev s) as [|x r] eqn:Er; simpl in *.
  - split; [|reflexivity]. exists [], c, s. auto.
  - split; [|exact H].
    exists (c :: rev r), x, []. split; [|exact H].
    rewrite <- (rev_involutive s), Er. reflexivity.
Qed.

(** The search skips a prefix that ends with a line terminator and holds
    no marker. *)
Lemma regexMatch_skip (skip Y : list N) :
  endsWithLineTerminator skip = true -> hasMarker skip = false ->
  regexMatch diagnosticPattern (skip ++ Y) = regexMatch diagnosticPattern Y.
Proof.
  induction skip as [|c skip IH]; intros Hend Hno; [reflexivity|].
  destruct (endsWithLineTerminator_cons _ _ Hend) as [(v1 & x & v2 & E & Hx) Hend'].
  assert (matchHere diagnosticPattern ((c :: skip) ++ Y) [] = None) as Hfail.
  { rewrite E. apply matchHere_no_marker; [exact Hx|]. rewrite <- E. exact Hno. }
  simpl app in *. rewrite (regexMatch_next _ _ _ Hfail).
  apply IH; [exact Hend'|].
  simpl in Hno. apply orb_false_iff in Hno. tauto.
Qed.

(** A string without a marker gives no match at all. *)
Lemma regexMatch_no_marker (s : list N) :
  hasMarker s = false -> regexMatch diagnosticPattern s = None.
Proof.
  assert (Hhere : forall t : list N, hasMarker t = false ->
                    matchHere diagnosticPattern t [] = None).
  { intros t Ht. rewrite matchHere_diagnostic. apply backtrack_none.
    intros i _. rewrite matchHere_marker, markerParts_None; [reflexivity|].
    apply hasMarker_drop, Ht. }
  induction s as [|c s IH]; intros H.
  - reflexivity.
  - rewrite (regexMatch_next _ _ _ (Hhere _ H)). apply IH.
    simpl in H. apply orb_false_iff in H. tauto.
Qed.

(** ** Lines and records *)

(** C3, as stated, fails: on a line with two markers the file runs up
    to the second marker, not the first. *)
Lemma first_marker_counterexample :
  twoMarkers = js "a.xml" ++ colon :: js "1" ++ colon :: space :: js "b.xml:2: msg" /\
  hasMarker (js "a.xml") = false /\
  parseLine twoMarkers =
    {| file := js "a.xml:1: b.xml"; line := Exact 2; message := js "msg" |} /\
  parseLine twoMarkers <>
    {| file := js "a.xml"; line := Exact 1; message := js "b.xml:2: msg" |}.
Proof. repeat split; try reflexivity. vm_compute. discriminate. Qed.

(** C3, amended: the parser takes the first stretch of the line free of
    line terminators that holds a marker (the whole line when it has no
    CR, LS or PS) and splits it at the LAST marker of that stretch: the
    file is the stretch before that marker, the line number the integer
    of that marker, the message the stretch after it. *)
Theorem parseLine_last_marker (skip pre ds msg rest : list N) :
  endsWithLineTerminator skip = true -> hasMarker skip = false ->
  noLineTerminator pre = true ->
  ds <> [] -> forallb isDigit ds = true ->
  noLineTerminator msg = true -> hasMarker msg = false ->
  stopsDot rest = true ->
  parseLine (skip ++ pre ++ colon :: ds ++ colon :: space :: msg ++ rest) =
    {| file := pre; line := parseInt10 ds; message := msg |}.
Proof.
  intros Hskip Hnoskip Hpre Hne Hds Hmsg Hno Hrest.
  unfold parseLine.
  rewrite (regexMatch_skip skip _ Hskip Hnoskip).
  rewrite (regexMatch_here _ _ _
             (matchHere_last_marker pre ds msg rest Hpre Hne Hds Hmsg Hno Hrest)).
  reflexivity.
Qed.

Lemma parseLine_last_marker_witness :
  parseLine twoMarkers =
    {| file := js "a.xml:1: b.xml"; line := Exact 2; message := js "msg" |}.
Proof.
  apply (parseLine_last_marker [] (js "a.xml:1: b.xml") (js "2") (js "msg") []);
    try reflexivity.
  discriminate.
Defined.


Lemma keepRecord_true_iff r :
  keepRecord r = true <-> file r <> [] /\ message r <> [].
Proof.
  unfold keepRecord. rewrite andb_true_iff, !truthy_true_iff. reflexivity.
Qed.

Lemma parseText_Errors (text : list N) errs :
  parseText text = Errors errs ->
  trim text <> [] /\
  errs = List.filter keepRecord (map parseLine (splitLines (trim text))).
Proof.
  unfold parseText. destruct (truthy (trim text)) eqn:E; [|discriminate].
  intros [= <-]. split; [|reflexivity]. now apply truthy_true_iff.
Qed.

(** C1, as stated, fails: the record of the first line has a file and no
    message, and is not in the list returned. *)
Lemma retained_counterexample :
  let r := {| file := js "a.xml"; line := Exact 3; message := [] |} in
  In r (map parseLine (splitLines (trim noMessageText))) /\
  file r <> [] /\
  parseValidationErrors None (Some noMessageText) =
    Errors [ {| file := js "b.xml"; line := Exact 4; message := js "bad" |} ] /\
  ~ In r [ {| file := js "b.xml"; line := Exact 4; message := js "bad" |} ].
Proof.
  repeat split.
  - left. reflexivity.
  - discriminate.
  - intros [H|[]]. discriminate H.
Qed.

(** C1, amended: a parsed record is in the list returned exactly when
    both its file and its message are non-empty; a record with an empty
    file or an empty message is discarded, whatever the other field. *)
Theorem retained_iff_both_nonempty (error : option ErrorObject)
  (stderr : option JsString) (errs : list ValidationError) :
  parseValidationErrors error stderr = Errors errs ->
  forall r, In r errs <->
    In r (map parseLine (splitLines (trim (selectText error stderr)))) /\
    file r <> [] /\ message r <> [].
Proof.
  intros H r. apply parseText_Errors in H as [_ ->].
  rewrite filter_In, keepRecord_true_iff. reflexivity.
Qed.

Lemma retained_iff_both_nonempty_witness :
  In {| file := js "b.xml"; line := Exact 4; message := js "bad" |}
     [ {| file := js "b.xml"; line := Exact 4; message := js "bad" |} ] <->
  In {| file := js "b.xml"; line := Exact 4; message := js "bad" |}
     (map parseLine (splitLines (trim (selectText None (Some noMessageText))))) /\
  js "b.xml" <> [] /\ js "bad" <> [].
Proof.
  exact (retained_iff_both_nonempty None (Some noMessageText) _ eq_refl
           {| file := js "b.xml"; line := Exact 4; message := js "bad" |}).
Defined.





(** ** The command line *)

Lemma splitOn_no_sep sep (a : list N) :
  forallb (fun c => negb (c =? sep)%N) a = true -> splitOn sep a = [a].
Proof.
  induction a as [|c a IH]; simpl; [reflexivity|].
  intros H. apply andb_true_iff in H as [Hc Ha].
  apply negb_true_iff in Hc. rewrite Hc, (IH Ha). reflexivity.
Qed.

Lemma splitOn_app sep (a b : list N) :
  forallb (fun c => negb (c =? sep)%N) a = true ->
  splitOn sep (a ++ sep :: b) = a :: splitOn sep b.
Proof.
  induction a as [|c a IH]; simpl.
  - intros _. rewrite N.eqb_refl. reflexivity.
  - intros H. apply andb_true_iff in H as [Hc Ha].
    apply negb_true_iff in Hc. rewrite Hc, (IH Ha). reflexivity.
Qed.

(** C7, as stated, fails: a path with a space goes into the command line
    as it is, with no quote or escape character, so the command line has
    six words instead of five and is the one of another pair of paths. *)
Lemma unquoted_path_counterexample :
  commandLine (js "my schema.xsd") (js "doc.xml") =
    js "xmllint --noout --schema my schema.xsd doc.xml" /\
  words (commandLine (js "my schema.xsd") (js "doc.xml")) =
    [js "xmllint"; js "--noout"; js "--schema"; js "my"; js "schema.xsd"; js "doc.xml"] /\
  commandLine (js "my schema.xsd") (js "doc.xml") =
    commandLine (js "my") (js "schema.xsd doc.xml") /\
  (js "my schema.xsd", js "doc.xml") <> (js "my", js "schema.xsd doc.xml").
Proof. repeat split. discriminate. Qed.

(** C7, amended: the command line is [xmllint --noout --schema], the
    schema path and the document path, separated by single spaces, with
    the two paths copied as they are, neither quoted nor escaped; when
    neither path holds a space, its words are exactly these five. *)
Theorem commandLine_words (tempXsdPath tempXmlPath : list N) :
  commandLine tempXsdPath tempXmlPath =
    js "xmllint --noout --schema" ++ space :: tempXsdPath ++ space :: tempXmlPath /\
  (noSpace tempXsdPath = true -> noSpace tempXmlPath = true ->
   words (commandLine tempXsdPath tempXmlPath) =
     [js "xmllint"; js "--noout"; js "--schema"; tempXsdPath; tempXmlPath]).
Proof.
  split; [reflexivity|]. intros Hx Hm. unfold words, commandLine.
  change (js "xmllint --noout --schema " ++ tempXsdPath ++ js " " ++ tempXmlPath)
    with (js "xmllint" ++ space :: js "--noout" ++ space :: js "--schema" ++
          space :: tempXsdPath ++ space :: tempXmlPath).
  rewrite !splitOn_app by (reflexivity || assumption).
  rewrite splitOn_no_sep by exact Hm. reflexivity.
Qed.

Lemma commandLine_words_witness :
  words (commandLine (js "schema.xsd") (js "doc.xml")) =
    [js "xmllint"; js "--noout"; js "--schema"; js "schema.xsd"; js "doc.xml"].
Proof.
  apply (proj2 (commandLine_words (js "schema.xsd") (js "doc.xml"))); reflexivity.
Defined.

(** ** The two validation calls *)

(** Once the inputs are materialized and the cleanup goes through, the
    blocking call returns [syncResult] of the outcome of the subprocess. *)
Lemma validateSync_run env this w paths w1 w2 :
  getTempPaths env this w = (Returned paths, w1) ->
  cleanupTempFiles this paths.1 paths.2 w1 = (Returned tt, w2) ->
  validateSync env this w =
    (Returned (syncResult (subprocess env (commandLine paths.1 paths.2) (fs w1))), w2).
Proof.
  intros Hget Hclean. unfold validateSync, bind, tryCatch, execSync, ret.
  rewrite Hget.
  destruct (subprocess env (commandLine paths.1 paths.2) (fs w1));
    simpl; rewrite Hclean; reflexivity.
Qed.

(** And the promise of the non-blocking call resolves with what the
    parser makes of the arguments of the callback. *)
Lemma validate_run env this w paths w1 w2 args :
  getTempPaths env this w = (Returned paths, w1) ->
  exec env (commandLine paths.1 paths.2) w1 = Returned args ->
  cleanupTempFiles this paths.1 paths.2 w1 = (Returned tt, w2) ->
  validate env this w =
    (Resolved (parseValidationErrors args.1 (Some args.2)), w2).
Proof.
  intros Hget Hexec Hclean. unfold validate. rewrite Hget, Hexec, Hclean. reflexivity.
Qed.

(** When [exec] throws, the promise is rejected and nothing is cleaned
    up. *)
Lemma validate_exec_throws env this w paths w1 e :
  getTempPaths env this w = (Returned paths, w1) ->
  exec env (commandLine paths.1 paths.2) w1 = Thrown e ->
  validate env this w = (Rejected e, w1).
Proof.
  intros Hget Hexec. unfold validate. rewrite Hget, Hexec. reflexivity.
Qed.

(** A throw while the inputs are materialized leaves both calls by the
    error flow. *)
Lemma materialize_throws env this w e w1 :
  getTempPaths env this w = (Thrown e, w1) ->
  validate env this w = (Rejected e, w1) /\
  validateSync env this w = (Thrown e, w1).
Proof.
  intros Hget. unfold validate, validateSync, bind. rewrite Hget. auto.
Qed.

Lemma writeTempFile_ok env b w :
  writeError env (tempName env (clockReads w)) = None ->
  writeTempFile env b w =
    (Returned (tempName env (clockReads w)),
     {| fs := <[tempName env (clockReads w) := b]> (fs w);
        clockReads := S (clockReads w);
        written := written w ++ [tempName env (clockReads w)] |}).
Proof.
  intros H. unfold writeTempFile, bind, DateNow, writeFileSync, ret, tempName in *.
  cbv beta iota. cbn [fs clockReads written]. rewrite H. reflexivity.
Qed.

Lemma writeTempFile_fails env b w e :
  writeError env (tempName env (clockReads w)) = Some e ->
  writeTempFile env b w =
    (Thrown e, {| fs := fs w; clockReads := S (clockReads w); written := written w |}).
Proof.
  intros H. unfold writeTempFile, bind, DateNow, writeFileSync, ret, tempName in *.
  cbv beta iota. cbn [fs clockReads written]. rewrite H. reflexivity.
Qed.

Lemma unlinkSync_ok path files k log content :
  files !! path = Some content ->
  unlinkSync path {| fs := files; clockReads := k; written := log |} =
    (Returned tt, {| fs := delete path files; clockReads := k; written := log |}).
Proof. intros H. unfold unlinkSync. cbn [fs]. rewrite H. reflexivity. Qed.

Ltac run_effects :=
  unfold getTempPaths, cleanupTempFiles, bind, ret;
  cbn [xsdPath xmlPath isBuffer fst snd fs clockReads written].

(** When the writes to the generated names succeed and the names differ,
    the inputs are materialized, the files are there for the subprocess,
    and the cleanup removes them. *)
Lemma materialize_and_cleanup env this w :
  Forall (fun p => writeError env p = None) (tempNames env this w) ->
  NoDup (tempNames env this w) ->
  exists paths w1 w2,
    getTempPaths env this w = (Returned paths, w1) /\
    cleanupTempFiles this paths.1 paths.2 w1 = (Returned tt, w2) /\
    written w2 = written w ++ tempNames env this w /\
    (forall p, In p (tempNames env this w) -> is_Some (fs w1 !! p)) /\
    (forall p, In p (tempNames env this w) -> fs w2 !! p = None) /\
    (forall q, ~ In q (tempNames env this w) -> fs w2 !! q = fs w !! q).
Proof.
  destruct this as [[p|b1] [q|b2]]; unfold tempNames;
    cbn [xsdPath xmlPath]; intros Hok Hnd.
  - exists (p, q), w, w. run_effects. rewrite app_nil_r.
    repeat split; simpl; tauto.
  - apply Forall_cons in Hok as [H1 _].
    eexists (p, _), _, _. run_effects.
    rewrite (writeTempFile_ok _ _ _ H1).
    split; [reflexivity|]. cbn [fst snd].
    erewrite unlinkSync_ok by apply lookup_insert_eq.
    cbn [fs written]. repeat split; cbn [fs].
    + intros x [<-|[]]. rewrite lookup_insert_eq. eauto.
    + intros x [<-|[]]. apply lookup_delete_eq.
    + intros x Hx. simpl in Hx.
      rewrite lookup_delete_ne, lookup_insert_ne by tauto. reflexivity.
  - apply Forall_cons in Hok as [H1 _].
    eexists (_, q), _, _. run_effects.
    rewrite (writeTempFile_ok _ _ _ H1).
    split; [reflexivity|]. cbn [fst snd].
    erewrite unlinkSync_ok by apply lookup_insert_eq.
    cbn [fs written]. repeat split; cbn [fs].
    + intros x [<-|[]]. rewrite lookup_insert_eq. eauto.
    + intros x [<-|[]]. apply lookup_delete_eq.
    + intros x Hx. simpl in Hx.
      rewrite lookup_delete_ne, lookup_insert_ne by tauto. reflexivity.
  - apply Forall_cons in Hok as [H1 Hok]. apply Forall_cons in Hok as [H2 _].
    apply NoDup_cons in Hnd as [Hne _].
    assert (tempName env (clockReads w) <> tempName env (S (clockReads w))) as Hd.
    { intros E. apply Hne. rewrite <- E. left. }
    eexists (_, _), _, _. run_effects.
    rewrite (writeTempFile_ok _ _ _ H1). cbn [fst snd fs clockReads written].
    rewrite writeTempFile_ok by exact H2. cbn [fst snd fs clockReads written].
    split; [reflexivity|]. cbn [fst snd].
    erewrite unlinkSync_ok
      by (rewrite lookup_insert_ne by congruence; apply lookup_insert_eq).
    cbn [fs clockReads written].
    erewrite unlinkSync_ok
      by (rewrite lookup_delete_ne by congruence; apply lookup_insert_eq).
    cbn [fs clockReads written].
    rewrite <- app_assoc. repeat split; cbn [fs].
    + intros x [<-|[<-|[]]].
      * rewrite lookup_insert_ne, lookup_insert_eq by congruence. eauto.
      * rewrite lookup_insert_eq. eauto.
    + intros x [<-|[<-|[]]].
      * rewrite lookup_delete_ne, lookup_delete_eq by congruence. reflexivity.
      * apply lookup_delete_eq.
    + intros x Hx. simpl in Hx.
      rewrite !lookup_delete_ne, !lookup_insert_ne by tauto. reflexivity.
Qed.


(** A failing write makes [getTempPaths] throw the error of the first
    write that fails. *)
Lemma getTempPaths_write_fails env this w :
  Exists (fun p => writeError env p <> None) (tempNames env this w) ->
  exists e w1,
    (exists p, In p (tempNames env this w) /\ writeError env p = Some e) /\
    getTempPaths env this w = (Thrown e, w1).
Proof.
  destruct this as [[p|b1] [q|b2]]; unfold tempNames;
    cbn [xsdPath xmlPath]; intros Hex.
  - inversion Hex.
  - apply Exists_cons in Hex as [H1|Hex]; [|inversion Hex].
    destruct (writeError env (tempName env (clockReads w))) as [e|] eqn:E; [|congruence].
    exists e. eexists. split; [exists (tempName env (clockReads w)); simpl; auto|].
    run_effects. rewrite (writeTempFile_fails _ _ _ _ E). reflexivity.
  - apply Exists_cons in Hex as [H1|Hex]; [|inversion Hex].
    destruct (writeError env (tempName env (clockReads w))) as [e|] eqn:E; [|congruence].
    exists e. eexists. split; [exists (tempName env (clockReads w)); simpl; auto|].
    run_effects. rewrite (writeTempFile_fails _ _ _ _ E). reflexivity.
  - destruct (writeError env (tempName env (clockReads w))) as [e|] eqn:E.
    + exists e. eexists. split; [exists (tempName env (clockReads w)); simpl; auto|].
      run_effects. rewrite (writeTempFile_fails _ _ _ _ E). reflexivity.
    + apply Exists_cons in Hex as [H1|Hex]; [congruence|].
      apply Exists_cons in Hex as [H2|Hex]; [|inversion Hex].
      destruct (writeError env (tempName env (S (clockReads w)))) as [e|] eqn:E2;
        [|congruence].
      exists e. eexists.
      split; [exists (tempName env (S (clockReads w))); simpl; auto|].
      run_effects. rewrite (writeTempFile_ok _ _ _ E).
      cbn [fst snd fs clockReads written].
      rewrite (writeTempFile_fails _ _ _ e) by exact E2. reflexivity.
Qed.




(** When the inputs are materialized, every write to a generated name
    has succeeded. *)
Lemma getTempPaths_returned_writes env this w paths w1 :
  getTempPaths env this w = (Returned paths, w1) ->
  Forall (fun p => writeError env p = None) (tempNames env this w).
Proof.
  intros Hget.
  destruct (decide (Forall (fun p => writeError env p = None) (tempNames env this w)))
    as [Hok|Hfail]; [exact Hok|].
  apply not_Forall_Exists in Hfail; [|intros x; apply _].
  destruct (getTempPaths_write_fails env this w Hfail) as (e & w' & _ & Hthrow).
  rewrite Hthrow in Hget. discriminate Hget.
Qed.

(** Materialized under names that differ, the inputs are cleaned up
    without a throw. *)
Lemma cleanup_after_materialize env this w paths w1 :
  getTempPaths env this w = (Returned paths, w1) ->
  NoDup (tempNames env this w) ->
  exists w2, cleanupTempFiles this paths.1 paths.2 w1 = (Returned tt, w2).
Proof.
  intros Hget Hnd.
  destruct (materialize_and_cleanup env this w
              (getTempPaths_returned_writes _ _ _ _ _ Hget) Hnd)
    as (paths' & w1' & w2 & Hget' & Hclean & _).
  rewrite Hget in Hget'. injection Hget' as <- <-. exists w2. exact Hclean.
Qed.

(** C4, as stated, fails: when the subprocess cannot be spawned and
    [exec] reports it through its callback, both calls end normally with
    a ValidationResult, here the empty list. *)
Lemma spawn_failure_counterexample :
  (forall command files,
     subprocess spawnFailsEnv command files = SpawnFailed spawnError spawnSyncError) /\
  validate spawnFailsEnv pathsValidator emptyWorld = (Resolved (Errors []), emptyWorld) /\
  validateSync spawnFailsEnv pathsValidator emptyWorld = (Returned (Errors []), emptyWorld).
Proof. repeat split. Qed.

(** C4, amended: a failed write of a raw-content input leaves the call
    by the error flow, a rejected promise or a thrown error, which
    carries no ValidationResult.  A subprocess that cannot be spawned
    does not, in the blocking mode: once the inputs are materialized
    under names that differ, [validateSync] catches the error of
    [execSync] and returns the ValidationResult parsed from it.  In the
    non-blocking mode it depends on how [exec] reports the failure:
    through its callback, the promise resolves, under the same
    conditions, with the ValidationResult parsed from the error object,
    as after a non-zero exit; by an exception thrown by [exec] itself,
    the promise is rejected with it and nothing is cleaned up. *)
Theorem invocation_failures env this w :
  (Exists (fun p => writeError env p <> None) (tempNames env this w) ->
   exists e w1,
     (exists p, In p (tempNames env this w) /\ writeError env p = Some e) /\
     validate env this w = (Rejected e, w1) /\
     validateSync env this w = (Thrown e, w1)) /\
  (forall paths w1 e e',
     getTempPaths env this w = (Returned paths, w1) ->
     NoDup (tempNames env this w) ->
     subprocess env (commandLine paths.1 paths.2) (fs w1) = SpawnFailed e e' ->
     exists w2,
       validate env this w =
         (Resolved (parseValidationErrors (Some e) (Some [])), w2) /\
       validateSync env this w =
         (Returned (parseValidationErrors (Some e') None), w2)) /\
  (forall paths w1 e e',
     getTempPaths env this w = (Returned paths, w1) ->
     NoDup (tempNames env this w) ->
     subprocess env (commandLine paths.1 paths.2) (fs w1) = SpawnThrows e e' ->
     exists w2,
       validate env this w = (Rejected e, w1) /\
       validateSync env this w =
         (Returned (parseValidationErrors (Some e') None), w2)).
Proof.
  split; [|split].
  - intros Hex.
    destruct (getTempPaths_write_fails env this w Hex) as (e & w1 & Hp & Hget).
    exists e, w1. split; [exact Hp|]. exact (materialize_throws _ _ _ _ _ Hget).
  - intros paths w1 e e' Hget Hnd Hspawn.
    destruct (cleanup_after_materialize _ _ _ _ _ Hget Hnd) as [w2 Hclean].
    exists w2.
    rewrite (validate_run _ _ _ _ _ _ (Some e, []) Hget
               ltac:(unfold exec; rewrite Hspawn; reflexivity) Hclean).
    rewrite (validateSync_run _ _ _ _ _ _ Hget Hclean), Hspawn.
    split; reflexivity.
  - intros paths w1 e e' Hget Hnd Hspawn.
    destruct (cleanup_after_materialize _ _ _ _ _ Hget Hnd) as [w2 Hclean].
    exists w2.
    rewrite (validate_exec_throws _ _ _ _ _ e Hget
               ltac:(unfold exec; rewrite Hspawn; reflexivity)).
    rewrite (validateSync_run _ _ _ _ _ _ Hget Hclean), Hspawn.
    split; reflexivity.
Qed.

Lemma invocation_failures_witness :
  (exists e w1,
     (exists p, In p (tempNames secondWriteFailsEnv buffersValidator emptyWorld) /\
                writeError secondWriteFailsEnv p = Some e) /\
     validate secondWriteFailsEnv buffersValidator emptyWorld = (Rejected e, w1) /\
     validateSync secondWriteFailsEnv buffersValidator emptyWorld = (Thrown e, w1)) /\
  (exists w2,
     validate spawnFailsEnv pathsValidator emptyWorld =
       (Resolved (parseValidationErrors (Some spawnError) (Some [])), w2) /\
     validateSync spawnFailsEnv pathsValidator emptyWorld =
       (Returned (parseValidationErrors (Some spawnSyncError) None), w2)) /\
  (exists w2,
     validate spawnThrowsEnv pathsValidator emptyWorld = (Rejected tooBigError, emptyWorld) /\
     validateSync spawnThrowsEnv pathsValidator emptyWorld =
       (Returned (parseValidationErrors (Some tooBigSyncError) None), w2)).
Proof.
  split; [|split].
  - apply (proj1 (invocation_failures secondWriteFailsEnv buffersValidator emptyWorld)).
    apply Exists_cons_tl, Exists_cons_hd. vm_compute. discriminate.
  - apply (proj1 (proj2 (invocation_failures spawnFailsEnv pathsValidator emptyWorld))
             (js "schema.xsd", js "doc.xml") emptyWorld spawnError spawnSyncError).
    + reflexivity.
    + constructor.
    + reflexivity.
  - apply (proj2 (proj2 (invocation_failures spawnThrowsEnv pathsValidator emptyWorld))
             (js "schema.xsd", js "doc.xml") emptyWorld tooBigError tooBigSyncError).
    + reflexivity.
    + constructor.
    + reflexivity.
Defined.




(** ** Temporary file names *)

Lemma js_inj (a b : String.string) : js a = js b -> a = b.
Proof.
  revert b. induction a as [|x a IH]; intros [|y b]; simpl; try discriminate.
  - reflexivity.
  - intros [= Hxy Hab]. f_equal; [|apply IH, Hab].
    rewrite <- (Ascii.ascii_N_embedding x), <- (Ascii.ascii_N_embedding y), Hxy.
    reflexivity.
Qed.

Lemma numberToString_inj (n m : N) : numberToString n = numberToString m -> n = m.
Proof.
  unfold numberToString. intros H. apply js_inj in H.
  apply (f_equal NilEmpty.uint_of_string) in H. rewrite !NilEmpty.usu in H.
  injection H as H. apply Unsigned.to_uint_inj, H.
Qed.

(** Two generated names are the same exactly when the two readings of
    the clock are: the names are unique per millisecond, not per call. *)
Lemma tempName_eq_iff env i j :
  tempName env i = tempName env j <-> dateNow env i = dateNow env j.
Proof.
  unfold tempName. split.
  - intros H. apply app_inv_head in H. apply app_inv_head in H.
    apply numberToString_inj, H.
  - intros ->. reflexivity.
Qed.

Lemma unlinkSync_missing path files k log :
  files !! path = None ->
  unlinkSync path {| fs := files; clockReads := k; written := log |} =
    (Thrown (ENOENT path), {| fs := files; clockReads := k; written := log |}).
Proof. intros H. unfold unlinkSync. cbn [fs]. rewrite H. reflexivity. Qed.

(** C6: with two raw-content inputs and two readings of the clock in the
    same millisecond, [getTempPaths] gives the same path twice: the
    document overwrites the schema, the second [unlinkSync] of the
    cleanup throws, and neither call delivers a result: the blocking
    call throws that error, and the callback of the non-blocking call
    leaves it uncaught (or [exec] threw and the promise is rejected). *)
Theorem same_millisecond_same_name env w (b1 b2 : list N) :
  let this := {| xsdPath := BufferInput b1; xmlPath := BufferInput b2 |} in
  dateNow env (clockReads w) = dateNow env (S (clockReads w)) ->
  writeError env (tempName env (clockReads w)) = None ->
  exists p w1,
    getTempPaths env this w = (Returned (p, p), w1) /\
    written w1 = written w ++ [p; p] /\
    fs w1 !! p = Some b2 /\
    (validateSync env this w).1 = Thrown (ENOENT p) /\
    (validate env this w).1 =
      match exec env (commandLine p p) w1 with
      | Returned _ => Uncaught (ENOENT p)
      | Thrown e => Rejected e
      end.
Proof.
  intros this Hsame Hok.
  assert (tempName env (S (clockReads w)) = tempName env (clockReads w)) as Hname.
  { symmetry. apply tempName_eq_iff, Hsame. }
  set (p := tempName env (clockReads w)) in *.
  assert (getTempPaths env this w =
            (Returned (p, p),
             {| fs := <[p := b2]> (<[p := b1]> (fs w));
                clockReads := S (S (clockReads w));
                written := (written w ++ [p]) ++ [p] |})) as Hget.
  { subst this. run_effects. rewrite (writeTempFile_ok _ _ _ Hok).
    cbn [fst snd fs clockReads written].
    rewrite writeTempFile_ok by (cbn [clockReads]; rewrite Hname; exact Hok).
    cbn [fst snd fs clockReads written]. rewrite Hname. reflexivity. }
  eexists p, _. split; [exact Hget|].
  split; [cbn [written]; rewrite <- app_assoc; reflexivity|].
  split; [apply lookup_insert_eq|].
  assert (forall files k log content,
            files !! p = Some content ->
            exists w',
              cleanupTempFiles this p p {| fs := files; clockReads := k; written := log |}
              = (Thrown (ENOENT p), w') /\ fs w' !! p = None) as Hfirst.
  { intros files k log content Hin. eexists. subst this. run_effects.
    rewrite (unlinkSync_ok _ _ _ _ _ Hin).
    rewrite unlinkSync_missing by apply lookup_delete_eq.
    split; [reflexivity|]. apply lookup_delete_eq. }
  assert (forall w', fs w' !! p = None ->
            cleanupTempFiles this p p w' = (Thrown (ENOENT p), w')) as Hagain.
  { intros [files k log] Hout. subst this. run_effects.
    rewrite (unlinkSync_missing _ _ _ _ Hout). reflexivity. }
  destruct (Hfirst (<[p := b2]> (<[p := b1]> (fs w))) (S (S (clockReads w)))
              ((written w ++ [p]) ++ [p]) b2 (lookup_insert_eq _ _ _))
    as (w' & Hclean & Hgone).
  split.
  - unfold validateSync, bind, tryCatch, execSync, ret. rewrite Hget.
    cbn [fst snd fs].
    destruct (subprocess env (commandLine p p) _); rewrite Hclean;
      [rewrite (Hagain _ Hgone)|..]; reflexivity.
  - unfold validate. rewrite Hget. cbn [fst snd].
    destruct (exec env (commandLine p p) _); [rewrite Hclean|]; reflexivity.
Qed.

Lemma same_millisecond_same_name_witness :
  exists p w1,
    getTempPaths sameMillisecondEnv buffersValidator emptyWorld = (Returned (p, p), w1) /\
    written w1 = written emptyWorld ++ [p; p] /\
    fs w1 !! p = Some xmlBytes /\
    (validateSync sameMillisecondEnv buffersValidator emptyWorld).1 = Thrown (ENOENT p) /\
    (validate sameMillisecondEnv buffersValidator emptyWorld).1 =
      match exec sameMillisecondEnv (commandLine p p) w1 with
      | Returned _ => Uncaught (ENOENT p)
      | Thrown e => Rejected e
      end.
Proof.
  apply (same_millisecond_same_name sameMillisecondEnv emptyWorld xsdBytes xmlBytes);
    reflexivity.
Defined.

(** Two calls that overlap, each with a raw-content schema: when the
    second materializes its input in the millisecond of the first, it
    writes over the temporary file of the first. *)
Example overlapping_calls_same_name :
  let first := {| xsdPath := BufferInput xsdBytes; xmlPath := PathInput (js "a.xml") |} in
  let second := {| xsdPath := BufferInput xmlBytes; xmlPath := PathInput (js "b.xml") |} in
  exists w1 w2,
    getTempPaths sameMillisecondEnv first emptyWorld =
      (Returned (js "/tmp/1700000000000", js "a.xml"), w1) /\
    fs w1 !! js "/tmp/1700000000000" = Some xsdBytes /\
    getTempPaths sameMillisecondEnv second w1 =
      (Returned (js "/tmp/1700000000000", js "b.xml"), w2) /\
    fs w2 !! js "/tmp/1700000000000" = Some xmlBytes.
Proof. eexists. eexists. repeat split; vm_compute; reflexivity. Qed.

(** * Further properties *)

(** ** What a match tells about the line *)

Lemma backtrack_Some_inv {A} (min n : nat) (f : nat -> option A) r :
  backtrack min n f = Some r ->
  exists j, min <= j <= n /\ f j = Some r /\
            forall j', j < j' <= n -> f j' = None.
Proof.
  induction n as [|n IH]; simpl.
  - destruct (Nat.ltb_spec 0 min); [discriminate|].
    destruct (f 0) eqn:E; [|discriminate].
    intros [= ->]. exists 0. split; [lia|]. split; [exact E|]. intros j' Hj'. lia.
  - destruct (Nat.ltb_spec (S n) min); [discriminate|].
    destruct (f (S n)) eqn:E.
    + intros [= ->]. exists (S n). split; [lia|]. split; [exact E|].
      intros j' Hj'. lia.
    + intros H'. destruct (IH H') as (j & Hj & Hf & Habove).
      exists j. split; [lia|]. split; [exact Hf|].
      intros j' Hj'. destruct (Nat.eq_dec j' (S n)) as [->|]; [exact E|].
      apply Habove. lia.
Qed.

Lemma backtrack_exists {A} (min n j : nat) (f : nat -> option A) :
  min <= j <= n -> f j <> None -> backtrack min n f <> None.
Proof.
  intros Hj Hf Hnone. apply Hf.
  destruct (f j) eqn:E; [|reflexivity]. exfalso.
  revert Hnone. clear Hf. induction n as [|n IH]; simpl.
  - assert (j = 0) as -> by lia. destruct (Nat.ltb_spec 0 min); [lia|].
    rewrite E. discriminate.
  - destruct (Nat.ltb_spec (S n) min); [lia|].
    destruct (Nat.eq_dec j (S n)) as [->|Hne].
    + rewrite E. discriminate.
    + destruct (f (S n)); [discriminate|]. apply IH. lia.
Qed.

Lemma runLength_take k (s : list N) j :
  j <= runLength k s -> forallb (inClass k) (take j s) = true.
Proof.
  revert j. induction s as [|c s IH]; intros j Hj; simpl in *.
  - rewrite take_nil. reflexivity.
  - destruct j as [|j]; [reflexivity|]. simpl.
    destruct (inClass k c); [|lia]. simpl. apply IH. lia.
Qed.

Lemma runLength_drop_stops (s : list N) :
  stopsDot (drop (runLength AnyChar s) s) = true.
Proof.
  induction s as [|c s IH]; simpl; [reflexivity|].
  destruct (isLineTerminator c) eqn:E; simpl; [exact E|exact IH].
Qed.

Lemma hasMarker_false_iff (s : list N) :
  hasMarker s = false <-> forall k, markerAt (drop k s) = false.
Proof.
  split; [intros H k; apply hasMarker_drop, H|].
  induction s as [|c s IH]; intros H.
  - reflexivity.
  - simpl. apply orb_false_iff. split; [exact (H 0)|].
    apply IH. intros k. exact (H (S k)).
Qed.

(** A marker at the head stays one when text is added at the end. *)
Lemma markerAt_app_l (t X : list N) :
  markerAt t = true -> markerAt (t ++ X) = true.
Proof.
  unfold markerAt. destruct (markerParts t) as [[ds tl]|] eqn:E; [|discriminate].
  intros _. apply markerParts_elim in E as (Hne & Hds & ->).
  change ((colon :: ds ++ colon :: space :: tl) ++ X)
    with (colon :: (ds ++ colon :: space :: tl) ++ X).
  rewrite <- app_assoc. simpl app.
  rewrite (markerParts_intro ds (tl ++ X) Hne Hds). reflexivity.
Qed.

(** Where the pattern matches when anchored, and what it captures. *)
Lemma matchHere_Some_inv (s : list N) caps :
  matchHere diagnosticPattern s [] = Some caps ->
  exists j ds tl,
    j <= runLength AnyChar s /\
    markerParts (drop j s) = Some (ds, tl) /\
    caps = [take j s; ds; take (runLength AnyChar tl) tl] /\
    forall j', j < j' <= runLength AnyChar s -> markerAt (drop j' s) = false.
Proof.
  rewrite matchHere_diagnostic. intros H.
  apply backtrack_Some_inv in H as (j & Hj & Hf & Habove).
  rewrite matchHere_marker in Hf.
  destruct (markerParts (drop j s)) as [[ds tl]|] eqn:E; [|discriminate].
  injection Hf as <-. exists j, ds, tl.
  split; [lia|]. split; [exact E|]. split; [reflexivity|].
  intros j' Hj'. specialize (Habove j' Hj'). rewrite matchHere_marker in Habove.
  unfold markerAt. destruct (markerParts (drop j' s)) as [[? ?]|]; [discriminate|].
  reflexivity.
Qed.

(** A marker within reach of the first group gives a match. *)
Lemma matchHere_exists (s : list N) j :
  j <= runLength AnyChar s -> markerAt (drop j s) = true ->
  matchHere diagnosticPattern s [] <> None.
Proof.
  intros Hj Hm. rewrite matchHere_diagnostic.
  apply backtrack_exists with (j := j); [lia|].
  rewrite matchHere_marker. unfold markerAt in Hm.
  destruct (markerParts (drop j s)) as [[? ?]|]; [discriminate|discriminate].
Qed.

Lemma regexMatch_Some_inv r (s : list N) caps :
  regexMatch r s = Some caps ->
  exists i, i <= length s /\
            matchHere r (drop i s) [] = Some caps /\
            forall i', i' < i -> matchHere r (drop i' s) [] = None.
Proof.
  induction s as [|c s IH]; simpl.
  - destruct (matchHere r [] []) eqn:E; [|discriminate].
    intros [= ->]. exists 0. split; [lia|]. split; [exact E|]. intros i' Hi'. lia.
  - destruct (matchHere r (c :: s) []) eqn:E.
    + intros [= ->]. exists 0. split; [lia|]. split; [exact E|]. intros i' Hi'. lia.
    + intros H. destruct (IH H) as (i & Hi & Hm & Hbefore).
      exists (S i). split; [simpl; lia|]. split; [exact Hm|].
      intros [|i'] Hi'; [exact E|]. simpl. apply Hbefore. lia.
Qed.

Lemma regexMatch_exists r (s : list N) i :
  matchHere r (drop i s) [] <> None -> regexMatch r s <> None.
Proof.
  revert i. induction s as [|c s IH]; intros i H.
  - rewrite drop_nil in H. simpl. destruct (matchHere r [] []); [discriminate|].
    congruence.
  - simpl. destruct (matchHere r (c :: s) []) eqn:E; [discriminate|].
    destruct i as [|i]; [simpl in H; congruence|].
    simpl in H. apply (IH i H).
Qed.

Lemma hasMarker_true_exists (s : list N) :
  hasMarker s = true -> exists k, markerAt (drop k s) = true.
Proof.
  induction s as [|c s IH]; simpl; [discriminate|].
  destruct (markerAt (c :: s)) eqn:E; simpl.
  - intros _. exists 0. exact E.
  - intros H. destruct (IH H) as [k Hk]. exists (S k). exact Hk.
Qed.

(** The length of the first group's reach on a stretch that holds a
    marker. *)
Lemma runLength_marker_line (pre ds tl : list N) :
  forallb (inClass AnyChar) pre = true -> forallb isDigit ds = true ->
  runLength AnyChar (pre ++ colon :: ds ++ colon :: space :: tl) =
    length pre + (1 + (length ds + (2 + runLength AnyChar tl))).
Proof.
  intros Hpre Hds.
  rewrite (runLength_all AnyChar pre) by exact Hpre. f_equal.
  change (colon :: ds ++ colon :: space :: tl)
    with ([colon] ++ ds ++ [colon; space] ++ tl).
  rewrite (runLength_all AnyChar [colon]) by reflexivity.
  rewrite (runLength_all AnyChar ds).
  2:{ apply forallb_forall. intros x Hx. rewrite forallb_forall in Hds.
      simpl. rewrite (digit_not_terminator _ (Hds x Hx)). reflexivity. }
  rewrite (runLength_all AnyChar [colon; space]) by reflexivity.
  reflexivity.
Qed.

(** X1: a line is matched by the pattern exactly when a marker, a colon,
    one or more digits, a colon and a space, occurs somewhere in it. *)
Theorem match_iff_marker (l : list N) :
  regexMatch diagnosticPattern l <> None <->
  exists a ds tl, ds <> [] /\ forallb isDigit ds = true /\
                  l = a ++ colon :: ds ++ colon :: space :: tl.
Proof.
  rewrite <- hasMarker_true_iff. split.
  - intros H. destruct (hasMarker l) eqn:E; [reflexivity|].
    exfalso. apply H. apply regexMatch_no_marker, E.
  - intros H. apply hasMarker_true_exists in H as [k Hk].
    apply (regexMatch_exists _ _ k).
    apply (matchHere_exists _ 0); [lia|exact Hk].
Qed.

(** What a match captures.  The line is a skipped part that ends with a
    line terminator and holds no marker, then the file, a marker and the
    message on one stretch free of line terminators, the message holding
    no further marker and running up to the next line terminator or the
    end of the line. *)
Lemma regexMatch_Some_parts (l : list N) caps :
  regexMatch diagnosticPattern l = Some caps ->
  exists skip pre ds msg rest,
    l = skip ++ pre ++ colon :: ds ++ colon :: space :: msg ++ rest /\
    caps = [pre; ds; msg] /\
    endsWithLineTerminator skip = true /\ hasMarker skip = false /\
    noLineTerminator pre = true /\
    ds <> [] /\ forallb isDigit ds = true /\
    noLineTerminator msg = true /\ hasMarker msg = false /\
    stopsDot rest = true.
Proof.
  intros H.
  apply regexMatch_Some_inv in H as (i & Hi & Hm & Hbefore).
  apply matchHere_Some_inv in Hm as (j & ds & tl & Hj & Hparts & -> & Habove).
  pose proof (markerParts_elim _ _ _ Hparts) as (Hne & Hds & Hdrop).
  set (s := drop i l) in *.
  set (pre := take j s) in *.
  set (msg := take (runLength AnyChar tl) tl).
  set (rest := drop (runLength AnyChar tl) tl).
  assert (Hpre : forallb (inClass AnyChar) pre = true) by (apply runLength_take, Hj).
  assert (Hmsg : forallb (inClass AnyChar) msg = true) by (apply runLength_take; lia).
  assert (Htl : tl = msg ++ rest) by (symmetry; apply take_drop).
  assert (Hs : s = pre ++ colon :: ds ++ colon :: space :: tl).
  { rewrite <- Hdrop. symmetry. apply take_drop. }
  assert (Hlenpre : length pre = j).
  { unfold pre. rewrite length_take. pose proof (runLength_le AnyChar s). lia. }
  assert (Hlenmsg : length msg = runLength AnyChar tl).
  { unfold msg. rewrite length_take. pose proof (runLength_le AnyChar tl). lia. }
  assert (Hmark : markerAt (drop j s) = true).
  { unfold markerAt. rewrite Hparts. reflexivity. }
  exists (take i l), pre, ds, msg, rest.
  split.
  { rewrite <- Htl, <- Hs. unfold s. symmetry. apply take_drop. }
  split; [reflexivity|]. split.
  { (* the skipped part ends with a line terminator *)
    destruct i as [|i]; [reflexivity|].
    destruct (l !! i) as [c|] eqn:Hc.
    2:{ apply lookup_ge_None in Hc. lia. }
    rewrite (take_S_r _ _ _ Hc). unfold endsWithLineTerminator.
    rewrite rev_app_distr. simpl.
    destruct (isLineTerminator c) eqn:Hlt; [reflexivity|]. exfalso.
    assert (drop i l = c :: s) as Hcons.
    { unfold s. rewrite (drop_S _ _ _ Hc). reflexivity. }
    apply (matchHere_exists (drop i l) (S j)).
    - rewrite Hcons. simpl. rewrite Hlt. simpl. lia.
    - rewrite Hcons. simpl. exact Hmark.
    - apply Hbefore. lia. }
  split.
  { (* and holds no marker *)
    apply hasMarker_false_iff. intros k.
    destruct (markerAt (drop k (take i l))) eqn:Hk; [|reflexivity]. exfalso.
    assert (k < i) as Hlt.
    { destruct (Nat.lt_ge_cases k i) as [|Hge]; [assumption|].
      rewrite drop_ge in Hk by (rewrite length_take; lia). discriminate. }
    apply (matchHere_exists (drop k l) 0); [lia| |apply Hbefore, Hlt].
    simpl. rewrite <- (take_drop i l) at 1.
    rewrite drop_app_le by (rewrite length_take; lia).
    apply markerAt_app_l, Hk. }
  split; [exact Hpre|]. split; [exact Hne|]. split; [exact Hds|].
  split; [exact Hmsg|]. split; [|apply runLength_drop_stops].
  apply hasMarker_false_iff. intros k.
  destruct (Nat.le_gt_cases k (length msg)) as [Hk|Hk].
  2:{ rewrite drop_ge by lia. reflexivity. }
  rewrite <- (markerAt_app_stop _ rest) by apply runLength_drop_stops.
  rewrite <- drop_app_le by exact Hk. rewrite <- Htl.
  assert (Hrun : runLength AnyChar s =
                 length pre + (1 + (length ds + (2 + runLength AnyChar tl)))).
  { rewrite Hs at 1. apply runLength_marker_line; assumption. }
  assert (Heq : drop (j + (1 + (length ds + (2 + k)))) s = drop k tl).
  { rewrite Hs. rewrite drop_app_ge by lia.
    replace (j + (1 + (length ds + (2 + k))) - length pre)
      with (S (length ds + (2 + k))) by lia.
    cbn [drop]. rewrite drop_app_ge by lia.
    replace (length ds + (2 + k) - length ds) with (S (S k)) by lia.
    reflexivity. }
  rewrite <- Heq. apply Habove. lia.
Qed.

(** X2: every record the parser returns comes from a line of the text:
    the line holds the file, a marker with the digits of the line number,
    and the message, next to each other; file and message hold no line
    terminator, the message holds no further marker and ends where the
    line or its terminator-free stretch ends. *)
Theorem returned_record_origin (error : option ErrorObject)
  (stderr : option JsString) (errs : list ValidationError) (r : ValidationError) :
  parseValidationErrors error stderr = Errors errs -> In r errs ->
  exists l skip ds rest,
    In l (splitLines (trim (selectText error stderr))) /\
    l = skip ++ file r ++ colon :: ds ++ colon :: space :: message r ++ rest /\
    line r = parseInt10 ds /\ ds <> [] /\ forallb isDigit ds = true /\
    noLineTerminator (file r) = true /\ noLineTerminator (message r) = true /\
    hasMarker (message r) = false /\
    endsWithLineTerminator skip = true /\ hasMarker skip = false /\
    stopsDot rest = true.
Proof.
  intros H Hr. apply parseText_Errors in H as [_ ->].
  apply filter_In in Hr as [Hr Hkeep].
  apply in_map_iff in Hr as (l & <- & Hl).
  unfold parseLine in *.
  destruct (regexMatch diagnosticPattern l) as [caps|] eqn:E.
  2:{ discriminate Hkeep. }
  apply regexMatch_Some_parts in E
    as (skip & pre & ds & msg & rest & Hline & -> & H1 & H2 & H3 & H4 & H5 & H6 & H7 & H8).
  exists l, skip, ds, rest. simpl. repeat split; assumption.
Qed.

Lemma returned_record_origin_witness :
  exists l skip ds rest,
    In l (splitLines (trim (selectText None (Some noMessageText)))) /\
    l = skip ++ js "b.xml" ++ colon :: ds ++ colon :: space :: js "bad" ++ rest /\
    Exact 4 = parseInt10 ds /\ ds <> [] /\ forallb isDigit ds = true /\
    noLineTerminator (js "b.xml") = true /\ noLineTerminator (js "bad") = true /\
    hasMarker (js "bad") = false /\
    endsWithLineTerminator skip = true /\ hasMarker skip = false /\
    stopsDot rest = true.
Proof.
  apply (returned_record_origin None (Some noMessageText)
           [ {| file := js "b.xml"; line := Exact 4; message := js "bad" |} ]
           {| file := js "b.xml"; line := Exact 4; message := js "bad" |}).
  - reflexivity.
  - left. reflexivity.
Defined.

(** ** Decimal digits *)

Lemma decimalValue_acc (d : Decimal.uint) (acc : positive) :
  fold_left (fun acc c => (10 * acc + digitValue c)%N)
    (js (NilEmpty.string_of_uint d)) (Npos acc) =
  Npos (Pos.of_uint_acc d acc).
Proof.
  revert acc. induction d as [|d IH|d IH|d IH|d IH|d IH|d IH|d IH|d IH|d IH|d IH];
    intros acc; [reflexivity|..];
    cbn [NilEmpty.string_of_uint js fold_left Pos.of_uint_acc];
    rewrite <- IH; f_equal; unfold digitValue; simpl Ascii.N_of_ascii; lia.
Qed.

Lemma decimalValue_of_uint (d : Decimal.uint) :
  decimalValue (js (NilEmpty.string_of_uint d)) = N.of_uint d.
Proof.
  unfold decimalValue, N.of_uint.
  induction d as [|d IH|d IH|d IH|d IH|d IH|d IH|d IH|d IH|d IH|d IH];
    [reflexivity|exact IH|..];
    cbn [NilEmpty.string_of_uint js fold_left Pos.of_uint];
    rewrite <- decimalValue_acc; f_equal.
Qed.

(** Reading back the digits of a number gives the number. *)
Lemma decimalValue_numberToString (n : N) :
  decimalValue (numberToString n) = n.
Proof.
  unfold numberToString. rewrite decimalValue_of_uint. apply Unsigned.of_to.
Qed.

Lemma string_of_uint_digits (d : Decimal.uint) :
  forallb isDigit (js (NilEmpty.string_of_uint d)) = true.
Proof.
  induction d as [|d IH|d IH|d IH|d IH|d IH|d IH|d IH|d IH|d IH|d IH];
    [reflexivity|..]; cbn [NilEmpty.string_of_uint js forallb]; rewrite IH;
    reflexivity.
Qed.

Lemma numberToString_digits (n : N) :
  numberToString n <> [] /\ forallb isDigit (numberToString n) = true.
Proof.
  split; [|apply string_of_uint_digits].
  unfold numberToString. intros E.
  assert (N.to_uint n = Decimal.Nil) as Hnil.
  { destruct (N.to_uint n); simpl in E; congruence. }
  destruct n as [|p]; [discriminate Hnil|].
  apply (f_equal N.of_uint) in Hnil. rewrite Unsigned.of_to in Hnil.
  discriminate Hnil.
Qed.

(** X3: a diagnostic line written as file, colon, decimal line number,
    colon, space, message is parsed back to these three parts, when file
    and message hold no line terminator and the message holds no marker;
    the number comes back exactly up to 2^53. *)
Theorem format_then_parse (f m : list N) (n : N) :
  noLineTerminator f = true -> noLineTerminator m = true ->
  hasMarker m = false ->
  parseLine (f ++ colon :: numberToString n ++ colon :: space :: m) =
    {| file := f;
       line := if (n <=? 2 ^ 53)%N then Exact n else Rounded n;
       message := m |}.
Proof.
  intros Hf Hm Hno.
  destruct (numberToString_digits n) as [Hne Hds].
  pose proof (matchHere_last_marker f (numberToString n) m []
                Hf Hne Hds Hm Hno eq_refl) as Hmatch.
  rewrite app_nil_r in Hmatch.
  unfold parseLine. rewrite (regexMatch_here _ _ _ Hmatch). simpl.
  unfold parseInt10. rewrite decimalValue_numberToString. reflexivity.
Qed.

Lemma format_then_parse_witness :
  parseLine (js "doc.xml" ++ colon :: numberToString 4 ++ colon :: space :: js "bad value") =
    {| file := js "doc.xml"; line := Exact 4; message := js "bad value" |}.
Proof.
  apply (format_then_parse (js "doc.xml") (js "bad value") 4); reflexivity.
Defined.

(** ** White space around the text *)

Lemma trimStart_app_blank (a t : list N) :
  forallb isWhiteSpace a = true -> trimStart (a ++ t) = trimStart t.
Proof.
  induction a as [|c a IH]; simpl; [reflexivity|].
  intros H. apply andb_true_iff in H as [Hc Ha]. rewrite Hc. apply IH, Ha.
Qed.

Lemma trimStart_app (t b : list N) :
  trimStart (t ++ b) =
  if forallb isWhiteSpace t then trimStart b else trimStart t ++ b.
Proof.
  induction t as [|c t IH]; simpl; [reflexivity|].
  destruct (isWhiteSpace c); simpl; [exact IH|reflexivity].
Qed.

Lemma trimEnd_app_blank (t b : list N) :
  forallb isWhiteSpace b = true -> trimEnd (t ++ b) = trimEnd t.
Proof.
  intros H. unfold trimEnd. rewrite rev_app_distr.
  rewrite trimStart_app_blank by (rewrite forallb_rev; exact H). reflexivity.
Qed.

Lemma trim_app_blank (a t b : list N) :
  forallb isWhiteSpace a = true -> forallb isWhiteSpace b = true ->
  trim (a ++ t ++ b) = trim t.
Proof.
  intros Ha Hb. unfold trim. rewrite (trimStart_app_blank a _ Ha).
  rewrite trimStart_app. destruct (forallb isWhiteSpace t) eqn:Ht.
  - apply trimStart_nil_iff in Hb. rewrite Hb.
    apply trimStart_nil_iff in Ht. rewrite Ht. reflexivity.
  - apply trimEnd_app_blank, Hb.
Qed.

Lemma selectText_raw (text : list N) : selectText None (Some text) = text.
Proof. destruct text; reflexivity. Qed.

(** X4: white space and blank lines before and after the captured text
    do not change what the parser returns. *)
Theorem surrounding_blanks_ignored (before text after : list N) :
  forallb isWhiteSpace before = true -> forallb isWhiteSpace after = true ->
  parseValidationErrors None (Some (before ++ text ++ after)) =
  parseValidationErrors None (Some text).
Proof.
  intros Ha Hb. unfold parseValidationErrors, parseText.
  rewrite !selectText_raw, (trim_app_blank before text after Ha Hb). reflexivity.
Qed.

Lemma surrounding_blanks_ignored_witness :
  parseValidationErrors None (Some ([LF; space] ++ twoMarkers ++ [space; LF])) =
  parseValidationErrors None (Some twoMarkers).
Proof.
  apply (surrounding_blanks_ignored [LF; space] twoMarkers [space; LF]); reflexivity.
Defined.

(** ** Texts of several lines *)

Lemma splitOn_nonempty sep (s : list N) : splitOn sep s <> [].
Proof.
  destruct s as [|c s]; simpl; [discriminate|].
  destruct (c =? sep)%N; [discriminate|].
  destruct (splitOn sep s); discriminate.
Qed.

Lemma splitOn_app_sep sep (a b : list N) :
  splitOn sep (a ++ sep :: b) = splitOn sep a ++ splitOn sep b.
Proof.
  induction a as [|c a IH]; simpl.
  - rewrite N.eqb_refl. reflexivity.
  - rewrite IH. destruct (c =? sep)%N; [reflexivity|].
    pose proof (splitOn_nonempty sep a) as Hne.
    destruct (splitOn sep a); [congruence|reflexivity].
Qed.

Lemma trimStart_length (s : list N) : length (trimStart s) <= length s.
Proof.
  induction s as [|c s IH]; simpl; [lia|]. destruct (isWhiteSpace c); simpl; lia.
Qed.

Lemma trimStart_fixed (s : list N) :
  length (trimStart s) = length s -> trimStart s = s.
Proof.
  destruct s as [|c s]; simpl; [reflexivity|].
  destruct (isWhiteSpace c); [|reflexivity].
  pose proof (trimStart_length s). lia.
Qed.

Lemma trimEnd_length (s : list N) : length (trimEnd s) <= length s.
Proof.
  unfold trimEnd. rewrite length_rev.
  pose proof (trimStart_length (rev s)) as H. rewrite length_rev in H. exact H.
Qed.

(** A text that [trim] leaves as it is starts and ends with a character
    that is not white space. *)
Lemma trim_fixed (s : list N) :
  trim s = s -> trimStart s = s /\ trimEnd s = s.
Proof.
  intros H. unfold trim in H.
  assert (trimStart s = s) as Hs.
  { apply trimStart_fixed. apply (f_equal (@length N)) in H.
    pose proof (trimEnd_length (trimStart s)). pose proof (trimStart_length s). lia. }
  split; [exact Hs|]. rewrite Hs in H. exact H.
Qed.

Lemma trimStart_app_fixed (s X : list N) :
  s <> [] -> trimStart s = s -> trimStart (s ++ X) = s ++ X.
Proof.
  destruct s as [|c s]; [congruence|]. intros _. simpl.
  destruct (isWhiteSpace c); [|reflexivity].
  intros H. apply (f_equal (@length N)) in H.
  pose proof (trimStart_length s). simpl in H. lia.
Qed.

Lemma trimEnd_app_fixed (X s : list N) :
  s <> [] -> trimEnd s = s -> trimEnd (X ++ s) = X ++ s.
Proof.
  intros Hne H. unfold trimEnd in *. rewrite rev_app_distr.
  rewrite trimStart_app_fixed.
  - rewrite rev_app_distr, !rev_involutive. reflexivity.
  - intros E. apply Hne. rewrite <- (rev_involutive s), E. reflexivity.
  - apply (f_equal (@rev N)) in H. rewrite rev_involutive in H. exact H.
Qed.

(** X5: the parser works line by line.  For two texts that do not start
    or end with white space, each of which gives a list, the text made
    of the first, a line feed and the second gives the two lists one
    after the other. *)
Theorem lines_compose (t1 t2 : list N) (errs1 errs2 : list ValidationError) :
  trim t1 = t1 -> trim t2 = t2 ->
  parseValidationErrors None (Some t1) = Errors errs1 ->
  parseValidationErrors None (Some t2) = Errors errs2 ->
  parseValidationErrors None (Some (t1 ++ LF :: t2)) = Errors (errs1 ++ errs2).
Proof.
  unfold parseValidationErrors. rewrite !selectText_raw.
  intros H1 H2 P1 P2.
  apply parseText_Errors in P1 as [Hne1 ->], P2 as [Hne2 ->].
  rewrite H1 in *. rewrite H2 in *.
  apply trim_fixed in H1 as [Hs1 He1], H2 as [Hs2 He2].
  assert (trim (t1 ++ LF :: t2) = t1 ++ LF :: t2) as Ht.
  { unfold trim. rewrite (trimStart_app_fixed t1 _ Hne1 Hs1).
    change (t1 ++ LF :: t2) with (t1 ++ [LF] ++ t2). rewrite app_assoc.
    apply trimEnd_app_fixed; assumption. }
  unfold parseText. rewrite Ht.
  assert (truthy (t1 ++ LF :: t2) = true) as ->.
  { apply truthy_true_iff. destruct t1; discriminate. }
  unfold splitLines.
  rewrite splitOn_app_sep, map_app, List.filter_app. reflexivity.
Qed.

Lemma lines_compose_witness :
  parseValidationErrors None (Some (twoMarkers ++ LF :: noMessageText)) =
  Errors ([ {| file := js "a.xml:1: b.xml"; line := Exact 2; message := js "msg" |} ] ++
          [ {| file := js "b.xml"; line := Exact 4; message := js "bad" |} ]).
Proof.
  apply (lines_compose twoMarkers noMessageText); reflexivity.
Defined.

(** ** More on the two validation calls *)


(** When both raw-content inputs got the same name, the cleanup throws
    at its second [unlinkSync], and throws the same error again when it
    is run once more. *)
Lemma cleanup_same_name (b1 b2 : list N) p files k log content :
  files !! p = Some content ->
  let this := {| xsdPath := BufferInput b1; xmlPath := BufferInput b2 |} in
  let w' := {| fs := delete p files; clockReads := k; written := log |} in
  cleanupTempFiles this p p {| fs := files; clockReads := k; written := log |}
    = (Thrown (ENOENT p), w') /\
  cleanupTempFiles this p p w' = (Thrown (ENOENT p), w').
Proof.
  intros Hin this w'. subst this w'. run_effects. split.
  - rewrite (unlinkSync_ok _ _ _ _ _ Hin).
    rewrite unlinkSync_missing by apply lookup_delete_eq. reflexivity.
  - rewrite unlinkSync_missing by apply lookup_delete_eq. reflexivity.
Qed.

Lemma validateSync_cleanup_throws env this w paths w1 e w2 :
  getTempPaths env this w = (Returned paths, w1) ->
  cleanupTempFiles this paths.1 paths.2 w1 = (Thrown e, w2) ->
  cleanupTempFiles this paths.1 paths.2 w2 = (Thrown e, w2) ->
  validateSync env this w = (Thrown e, w2).
Proof.
  intros Hget Hclean Hagain. unfold validateSync, bind, tryCatch, execSync, ret.
  rewrite Hget.
  destruct (subprocess env (commandLine paths.1 paths.2) (fs w1));
    simpl; rewrite Hclean; [rewrite Hagain|..]; reflexivity.
Qed.

(** X7: how the two modes compare in what they do to the files.  As
    long as [exec] does not throw, the blocking and the non-blocking
    call end in the same state and fail together: the blocking call
    returns when the promise resolves, and throws the error with which
    the promise is rejected (a failed write) or that the callback of
    [exec] leaves uncaught (the cleanup after a collision of names).
    When [exec] throws, the promise is rejected with its error in the
    state reached after the writes, while the blocking call, the names
    being distinct, goes on to return and to remove the temporary files
    the other mode leaves behind. *)
Theorem modes_agree_on_effects env this w :
  ((forall paths w1 e,
      getTempPaths env this w = (Returned paths, w1) ->
      exec env (commandLine paths.1 paths.2) w1 <> Thrown e) ->
   (validateSync env this w).2 = (validate env this w).2 /\
   match (validate env this w).1 with
   | Resolved _ => exists r, (validateSync env this w).1 = Returned r
   | Rejected e => (validateSync env this w).1 = Thrown e
   | Uncaught e => (validateSync env this w).1 = Thrown e
   end) /\
  (forall paths w1 e,
     getTempPaths env this w = (Returned paths, w1) ->
     exec env (commandLine paths.1 paths.2) w1 = Thrown e ->
     validate env this w = (Rejected e, w1) /\
     (NoDup (tempNames env this w) ->
      exists r w2,
        validateSync env this w = (Returned r, w2) /\
        forall p, In p (tempNames env this w) ->
                  is_Some (fs w1 !! p) /\ fs w2 !! p = None)).
Proof.
  split.
  - intros Hnothrow.
    destruct (decide (Forall (fun p => writeError env p = None) (tempNames env this w)))
      as [Hok|Hfail].
    + destruct (decide (NoDup (tempNames env this w))) as [Hnd|Hdup].
      * destruct (materialize_and_cleanup env this w Hok Hnd)
          as (paths & w1 & w2 & Hget & Hclean & _).
        destruct (exec env (commandLine paths.1 paths.2) w1) as [args|e] eqn:Hexec.
        2:{ destruct (Hnothrow _ _ e Hget Hexec). }
        rewrite (validate_run _ _ _ _ _ _ _ Hget Hexec Hclean).
        rewrite (validateSync_run _ _ _ _ _ _ Hget Hclean). simpl. eauto.
      * destruct this as [[p|b1] [q|b2]]; unfold tempNames in *;
          cbn [xsdPath xmlPath] in *;
          try (exfalso; apply Hdup; solve [apply NoDup_nil_2 | apply NoDup_singleton]).
        assert (tempName env (S (clockReads w)) = tempName env (clockReads w)) as Hname.
        { destruct (decide (tempName env (S (clockReads w)) = tempName env (clockReads w)))
            as [E|Hne]; [exact E|].
          exfalso. apply Hdup. apply NoDup_cons. split; [|apply NoDup_singleton].
          intros Hin. apply list_elem_of_singleton in Hin. congruence. }
        apply Forall_cons in Hok as [H1 _].
        set (p := tempName env (clockReads w)) in *.
        assert (getTempPaths env {| xsdPath := BufferInput b1; xmlPath := BufferInput b2 |} w =
                  (Returned (p, p),
                   {| fs := <[p := b2]> (<[p := b1]> (fs w));
                      clockReads := S (S (clockReads w));
                      written := (written w ++ [p]) ++ [p] |})) as Hget.
        { run_effects. rewrite (writeTempFile_ok _ _ _ H1).
          cbn [fst snd fs clockReads written].
          rewrite writeTempFile_ok by (cbn [clockReads]; rewrite Hname; exact H1).
          cbn [fst snd fs clockReads written]. rewrite Hname. reflexivity. }
        destruct (cleanup_same_name b1 b2 p (<[p := b2]> (<[p := b1]> (fs w)))
                    (S (S (clockReads w))) ((written w ++ [p]) ++ [p]) b2
                    (lookup_insert_eq _ _ _)) as [Hclean Hagain].
        rewrite (validateSync_cleanup_throws _ _ _ _ _ _ _ Hget Hclean Hagain).
        unfold validate. rewrite Hget. cbn [fst snd].
        destruct (exec env (commandLine p p) _) as [args|e] eqn:Hexec.
        2:{ destruct (Hnothrow _ _ e Hget Hexec). }
        rewrite Hclean. simpl. auto.
    + apply not_Forall_Exists in Hfail; [|intros x; apply _].
      assert (Exists (fun p => writeError env p <> None) (tempNames env this w)) as Hex.
      { eapply Exists_impl; [exact Hfail|]. intros x Hx. exact Hx. }
      destruct (getTempPaths_write_fails env this w Hex) as (e & w1 & _ & Hget).
      destruct (materialize_throws _ _ _ _ _ Hget) as [-> ->]. simpl. auto.
  - intros paths w1 e Hget Hexec.
    split; [exact (validate_exec_throws _ _ _ _ _ _ Hget Hexec)|].
    intros Hnd.
    destruct (materialize_and_cleanup env this w
                (getTempPaths_returned_writes _ _ _ _ _ Hget) Hnd)
      as (paths' & w1' & w2 & Hget' & Hclean & _ & Hthere & Hgone & _).
    rewrite Hget in Hget'. injection Hget' as <- <-.
    eexists _, w2. split; [exact (validateSync_run _ _ _ _ _ _ Hget Hclean)|].
    intros p Hp. split; [apply Hthere, Hp|apply Hgone, Hp].
Qed.

Lemma modes_agree_on_effects_witness :
  ((validateSync warningEnv buffersValidator emptyWorld).2 =
   (validate warningEnv buffersValidator emptyWorld).2 /\
   match (validate warningEnv buffersValidator emptyWorld).1 with
   | Resolved _ => exists r, (validateSync warningEnv buffersValidator emptyWorld).1 = Returned r
   | Rejected e => (validateSync warningEnv buffersValidator emptyWorld).1 = Thrown e
   | Uncaught e => (validateSync warningEnv buffersValidator emptyWorld).1 = Thrown e
   end) /\
  (validate spawnThrowsEnv buffersValidator emptyWorld =
     (Rejected tooBigError, (getTempPaths spawnThrowsEnv buffersValidator emptyWorld).2) /\
   (NoDup (tempNames spawnThrowsEnv buffersValidator emptyWorld) ->
    exists r w2,
      validateSync spawnThrowsEnv buffersValidator emptyWorld = (Returned r, w2) /\
      forall p, In p (tempNames spawnThrowsEnv buffersValidator emptyWorld) ->
                is_Some (fs (getTempPaths spawnThrowsEnv buffersValidator emptyWorld).2 !! p)
                /\ fs w2 !! p = None)).
Proof.
  split.
  - apply (proj1 (modes_agree_on_effects warningEnv buffersValidator emptyWorld)).
    intros paths w1 e _. unfold exec. simpl. discriminate.
  - apply (proj2 (modes_agree_on_effects spawnThrowsEnv buffersValidator emptyWorld)
             (js "/tmp/1700000000000", js "/tmp/1700000000001")
             (getTempPaths spawnThrowsEnv buffersValidator emptyWorld).2 tooBigError).
    + vm_compute. reflexivity.
    + vm_compute. reflexivity.
Defined.

(** What [writeTempFile] does, whichever way the write goes. *)
Lemma writeTempFile_cases env b w :
  (exists e, writeError env (tempName env (clockReads w)) = Some e /\
     writeTempFile env b w =
       (Thrown e, {| fs := fs w; clockReads := S (clockReads w); written := written w |})) \/
  (writeError env (tempName env (clockReads w)) = None /\
   writeTempFile env b w =
     (Returned (tempName env (clockReads w)),
      {| fs := <[tempName env (clockReads w) := b]> (fs w);
         clockReads := S (clockReads w);
         written := written w ++ [tempName env (clockReads w)] |})).
Proof.
  destruct (writeError env (tempName env (clockReads w))) as [e|] eqn:E.
  - left. exists e. split; [reflexivity|]. apply writeTempFile_fails, E.
  - right. split; [reflexivity|]. apply writeTempFile_ok, E.
Qed.

(** X8: what [getTempPaths] hands to the subprocess.  A path input is
    passed on unchanged; the path given for a raw-content input names a
    file that holds exactly the bytes of the input, for the document
    always and for the schema unless the document was written to the same
    path; the clock is read once per raw-content input. *)
Theorem materialized_inputs env this w paths w1 :
  getTempPaths env this w = (Returned paths, w1) ->
  (forall p, xsdPath this = PathInput p -> paths.1 = p) /\
  (forall q, xmlPath this = PathInput q -> paths.2 = q) /\
  (forall b, xmlPath this = BufferInput b -> fs w1 !! paths.2 = Some b) /\
  (forall b, xsdPath this = BufferInput b ->
     isBuffer (xmlPath this) = false \/ paths.1 <> paths.2 ->
     fs w1 !! paths.1 = Some b) /\
  clockReads w1 = clockReads w + bufferCount this.
Proof.
  destruct this as [[p|b1] [q|b2]]; unfold getTempPaths, bind, ret, bufferCount;
    cbn [xsdPath xmlPath isBuffer].
  - intros [= <- <-]. cbn [fst snd]. repeat split; try congruence. lia.
  - destruct (writeTempFile_cases env b2 w) as [(e & _ & ->)|[_ ->]]; [discriminate|].
    intros [= <- <-]. cbn [fst snd fs clockReads]. repeat split; try congruence.
    + intros b [= <-]. apply lookup_insert_eq.
    + lia.
  - destruct (writeTempFile_cases env b1 w) as [(e & _ & ->)|[_ ->]]; [discriminate|].
    intros [= <- <-]. cbn [fst snd fs clockReads]. repeat split; try congruence.
    + intros b [= <-] _. apply lookup_insert_eq.
    + lia.
  - destruct (writeTempFile_cases env b1 w) as [(e & _ & ->)|[_ ->]]; [discriminate|].
    match goal with
    | |- context [writeTempFile env b2 ?w'] =>
        destruct (writeTempFile_cases env b2 w') as [(e & _ & ->)|[_ ->]]
    end; [discriminate|].
    intros [= <- <-]. cbn [fst snd fs clockReads]. repeat split; try congruence.
    + intros b [= <-]. apply lookup_insert_eq.
    + intros b [= <-] [Hb|Hne]; [discriminate|].
      rewrite lookup_insert_ne by congruence. apply lookup_insert_eq.
    + lia.
Qed.

Lemma materialized_inputs_witness :
  (forall p, xsdPath buffersValidator = PathInput p -> js "/tmp/1700000000000" = p) /\
  (forall q, xmlPath buffersValidator = PathInput q -> js "/tmp/1700000000001" = q) /\
  (forall b, xmlPath buffersValidator = BufferInput b ->
     (getTempPaths warningEnv buffersValidator emptyWorld).2.(fs)
       !! js "/tmp/1700000000001" = Some b) /\
  (forall b, xsdPath buffersValidator = BufferInput b ->
     isBuffer (xmlPath buffersValidator) = false \/
     js "/tmp/1700000000000" <> js "/tmp/1700000000001" ->
     (getTempPaths warningEnv buffersValidator emptyWorld).2.(fs)
       !! js "/tmp/1700000000000" = Some b) /\
  clockReads (getTempPaths warningEnv buffersValidator emptyWorld).2 =
    clockReads emptyWorld + bufferCount buffersValidator.
Proof.
  apply (materialized_inputs warningEnv buffersValidator emptyWorld
           (js "/tmp/1700000000000", js "/tmp/1700000000001")
           (getTempPaths warningEnv buffersValidator emptyWorld).2).
  vm_compute. reflexivity.
Defined.

Lemma app_space_inj (x x' m m' : list N) :
  noSpace x = true -> noSpace x' = true ->
  x ++ space :: m = x' ++ space :: m' -> x = x' /\ m = m'.
Proof.
  revert x'. induction x as [|c x IH]; intros [|c' x'] Hx Hx'; simpl in *.
  - intros [= ->]. auto.
  - intros [= <- _]. apply andb_true_iff in Hx' as [Hc _].
    rewrite N.eqb_refl in Hc. discriminate.
  - intros [= -> _]. apply andb_true_iff in Hx as [Hc _].
    rewrite N.eqb_refl in Hc. discriminate.
  - intros [= -> E]. apply andb_true_iff in Hx as [_ Hx].
    apply andb_true_iff in Hx' as [_ Hx'].
    destruct (IH x' Hx Hx' E) as [-> ->]. auto.
Qed.

(** X9: when the schema path holds no space, the command line tells the
    two paths: two pairs of paths with the same command line are the
    same pair, whatever the document paths hold. *)
Theorem commandLine_injective (x m x' m' : list N) :
  noSpace x = true -> noSpace x' = true ->
  commandLine x m = commandLine x' m' -> x = x' /\ m = m'.
Proof.
  intros Hx Hx' H. unfold commandLine in H.
  apply app_inv_head in H. apply (app_space_inj x x' m m' Hx Hx' H).
Qed.

Lemma commandLine_injective_witness :
  js "schema.xsd" = js "schema.xsd" /\ js "my doc.xml" = js "my doc.xml".
Proof.
  apply (commandLine_injective (js "schema.xsd") (js "my doc.xml")
           (js "schema.xsd") (js "my doc.xml")); reflexivity.
Defined.

(** X10: two temporary files written one after the other get the same
    path exactly when the two readings of the clock give the same
    millisecond; the second file then replaces the first. *)
Theorem successive_names env (b1 b2 : list N) w p1 w1 p2 w2 :
  writeTempFile env b1 w = (Returned p1, w1) ->
  writeTempFile env b2 w1 = (Returned p2, w2) ->
  (p1 = p2 <-> dateNow env (clockReads w) = dateNow env (S (clockReads w))) /\
  fs w2 !! p2 = Some b2 /\
  (p1 <> p2 -> fs w2 !! p1 = Some b1).
Proof.
  destruct (writeTempFile_cases env b1 w) as [(e & _ & ->)|[_ ->]]; [discriminate|].
  intros [= <- <-].
  match goal with
  | |- context [writeTempFile env b2 ?w'] =>
      destruct (writeTempFile_cases env b2 w') as [(e & _ & ->)|[_ ->]]
  end; [discriminate|].
  intros [= <- <-]. cbn [fs clockReads]. split; [apply tempName_eq_iff|].
  split; [apply lookup_insert_eq|].
  intros Hne. rewrite lookup_insert_ne by congruence. apply lookup_insert_eq.
Qed.

Lemma successive_names_witness :
  (js "/tmp/1700000000000" = js "/tmp/1700000000000" <->
   dateNow sameMillisecondEnv (clockReads emptyWorld) =
   dateNow sameMillisecondEnv (S (clockReads emptyWorld))) /\
  fs (writeTempFile sameMillisecondEnv xmlBytes
        (writeTempFile sameMillisecondEnv xsdBytes emptyWorld).2).2
    !! js "/tmp/1700000000000" = Some xmlBytes /\
  (js "/tmp/1700000000000" <> js "/tmp/1700000000000" ->
   fs (writeTempFile sameMillisecondEnv xmlBytes
         (writeTempFile sameMillisecondEnv xsdBytes emptyWorld).2).2
     !! js "/tmp/1700000000000" = Some xsdBytes).
Proof.
  apply (successive_names sameMillisecondEnv xsdBytes xmlBytes emptyWorld
           (js "/tmp/1700000000000")
           (writeTempFile sameMillisecondEnv xsdBytes emptyWorld).2
           (js "/tmp/1700000000000")
           (writeTempFile sameMillisecondEnv xmlBytes
              (writeTempFile sameMillisecondEnv xsdBytes emptyWorld).2).2);
    vm_compute; reflexivity.
Defined.

(** ** The constructor *)

Lemma newXMLValidator_ok env xsd xml w v :
  subprocess env (js "xmllint --version") (fs w) = ExitZero v ->
  newXMLValidator env xsd xml w = (Returned {| xsdPath := xsd; xmlPath := xml |}, w).
Proof.
  intros H. unfold newXMLValidator, checkXmlLintInstallation, bind, tryCatch, execSync.
  rewrite H. reflexivity.
Qed.

Lemma newXMLValidator_fails env xsd xml w :
  (forall v, subprocess env (js "xmllint --version") (fs w) <> ExitZero v) ->
  newXMLValidator env xsd xml w = (Thrown notInstalled, w).
Proof.
  intros H. unfold newXMLValidator, checkXmlLintInstallation, bind, tryCatch, execSync.
  destruct (subprocess env (js "xmllint --version") (fs w)) as [v|e e' v|e e'|e e'];
    [destruct (H v eq_refl)|reflexivity..].
Qed.

(** X11: the constructor gives a validator, holding the two inputs as
    they were passed, exactly when [xmllint --version] exits with status
    zero.  Otherwise it throws the same "not installed" error whatever
    went wrong, a non-zero exit as well as a failure to spawn, and the
    error of the probe is lost.  It leaves the state as it was. *)
Theorem constructor_outcome env xsd xml w :
  (newXMLValidator env xsd xml w).2 = w /\
  ((exists v, subprocess env (js "xmllint --version") (fs w) = ExitZero v) ->
   (newXMLValidator env xsd xml w).1 = Returned {| xsdPath := xsd; xmlPath := xml |}) /\
  ((forall v, subprocess env (js "xmllint --version") (fs w) <> ExitZero v) ->
   (newXMLValidator env xsd xml w).1 = Thrown notInstalled).
Proof.
  destruct (subprocess env (js "xmllint --version") (fs w)) as [v|e e' v|e e'|e e'] eqn:E.
  - rewrite (newXMLValidator_ok _ _ _ _ _ E). repeat split.
    intros H. destruct (H v eq_refl).
  - rewrite newXMLValidator_fails by (rewrite E; discriminate). repeat split.
    intros [v' Hv']. discriminate Hv'.
  - rewrite newXMLValidator_fails by (rewrite E; discriminate). repeat split.
    intros [v' Hv']. discriminate Hv'.
  - rewrite newXMLValidator_fails by (rewrite E; discriminate). repeat split.
    intros [v' Hv']. discriminate Hv'.
Qed.

Lemma constructor_outcome_witness :
  (newXMLValidator warningEnv (PathInput (js "s.xsd")) (PathInput (js "d.xml")) emptyWorld).1
    = Returned {| xsdPath := PathInput (js "s.xsd"); xmlPath := PathInput (js "d.xml") |} /\
  (newXMLValidator spawnFailsEnv (PathInput (js "s.xsd")) (PathInput (js "d.xml")) emptyWorld).1
    = Thrown notInstalled.
Proof.
  split.
  - apply (proj1 (proj2 (constructor_outcome warningEnv (PathInput (js "s.xsd"))
                           (PathInput (js "d.xml")) emptyWorld))).
    exists warningStderr. reflexivity.
  - apply (proj2 (proj2 (constructor_outcome spawnFailsEnv (PathInput (js "s.xsd"))
                           (PathInput (js "d.xml")) emptyWorld))).
    intros v. discriminate.
Defined.

(** ** The table of the command line interface *)





(** ** The run of the command line interface *)

Lemma validate_path_inputs env (p q : list N) w :
  validate env {| xsdPath := PathInput p; xmlPath := PathInput q |} w =
    (match exec env (commandLine p q) w with
     | Returned args => Resolved (parseValidationErrors args.1 (Some args.2))
     | Thrown e => Rejected e
     end, w).
Proof.
  unfold validate.
  change (getTempPaths env {| xsdPath := PathInput p; xmlPath := PathInput q |} w)
    with (Returned (A := list N * list N) (p, q), w).
  cbn [fst snd]. destruct (exec env (commandLine p q) w); reflexivity.
Qed.

Lemma drawErrorsTable_cases term (errors : list ValidationError) out :
  (totalWidthOf term < 4 /\
   drawErrorsTable term errors out =
     (Thrown (rangeError (totalWidthOf term - 4)), out))%Z \/
  (4 <= totalWidthOf term /\
   exists more, drawErrorsTable term errors out = (Returned tt, out ++ more))%Z.
Proof.
  unfold drawErrorsTable, repeatDash.
  destruct (Z.ltb_spec (totalWidthOf term - 4) 0) as [Hlt|Hge].
  - left. split; [lia|reflexivity].
  - right. split; [lia|]. eexists. reflexivity.
Qed.

Lemma argMissing_false (s : list N) : s <> [] -> argMissing (Some s) = false.
Proof. destruct s; [congruence|reflexivity]. Qed.

(** What [cliValidate] prints after its two opening lines, once the
    constructor went through. *)
Lemma cliValidate_run env term (xsd xml : list N) w v :
  subprocess env (js "xmllint --version") (fs w) = ExitZero v ->
  exists out,
    cliValidate env term xsd xml w [] =
      (Completed, w,
       [Log (js "Validating XML: " ++ xml); Log (js "Using XSD: " ++ xsd)] ++ out) /\
    match exec env (commandLine xsd xml) w with
    | Thrown e => out = [errorOccurred e]
    | Returned args =>
        match parseValidationErrors args.1 (Some args.2) with
        | JsTrue => out = [Log (js "XML is valid.")]
        | Errors result =>
            exists more, out = Log (js "XML validation errors:") :: more /\
              ((totalWidthOf term < 4)%Z ->
               more = [errorOccurred (rangeError (totalWidthOf term - 4))])
        end
    end.
Proof.
  intros Hprobe. unfold cliValidate.
  rewrite (newXMLValidator_ok _ _ _ _ _ Hprobe), validate_path_inputs.
  destruct (exec env (commandLine xsd xml) w) as [args|e].
  2:{ eexists. split; reflexivity. }
  destruct (parseValidationErrors args.1 (Some args.2)) as [|result].
  - eexists. split; reflexivity.
  - match goal with
    | |- context [drawErrorsTable term result ?o] =>
        destruct (drawErrorsTable_cases term result o) as [[Hlt ->]|[Hge [more ->]]]
    end.
    + eexists. split; [reflexivity|]. eexists. split; [reflexivity|]. reflexivity.
    + eexists. split; [rewrite <- !app_assoc; reflexivity|].
      eexists. split; [reflexivity|]. intros Hlt. lia.
Qed.




(** X15: on a terminal given as narrower than four columns the table
    cannot be drawn: when the callback of [exec] is called and the
    parser gives a list, [repeat] throws a RangeError before anything of
    the table is printed; the program catches it, prints it on the error
    stream after the line that announces the errors, and runs to its
    end. *)
Theorem narrow_terminal_table env term (xsd xml : list N) (rest : list (list N)) w v
  (args : option ErrorObject * list N) (result : list ValidationError) :
  xsd <> [] -> xml <> [] ->
  subprocess env (js "xmllint --version") (fs w) = ExitZero v ->
  exec env (commandLine xsd xml) w = Returned args ->
  parseValidationErrors args.1 (Some args.2) = Errors result ->
  (totalWidthOf term < 4)%Z ->
  cliMain env term (xsd :: xml :: rest) w =
    (Completed, w,
     [Log (js "Validating XML: " ++ xml);
      Log (js "Using XSD: " ++ xsd);
      Log (js "XML validation errors:");
      ErrorLog (js "An error occurred: Invalid count value: "
                  ++ integerToString (totalWidthOf term - 4))]).
Proof.
  intros Hxsd Hxml Hprobe Hexec Hres Hnarrow. unfold cliMain.
  change ((xsd :: xml :: rest) !! 0) with (Some xsd).
  change ((xsd :: xml :: rest) !! 1) with (Some xml).
  rewrite (argMissing_false _ Hxsd), (argMissing_false _ Hxml).
  cbn [orb]. change (default [] (Some xsd)) with xsd.
  change (default [] (Some xml)) with xml.
  destruct (cliValidate_run env term xsd xml w v Hprobe) as (out & -> & Hout).
  rewrite Hexec, Hres in Hout. destruct Hout as (more & -> & Hmore).
  rewrite (Hmore Hnarrow). reflexivity.
Qed.

Lemma narrow_terminal_table_witness :
  cliMain warningEnv narrowTerminal [js "schema.xsd"; js "doc.xml"] emptyWorld =
    (Completed, emptyWorld,
     [Log (js "Validating XML: " ++ js "doc.xml");
      Log (js "Using XSD: " ++ js "schema.xsd");
      Log (js "XML validation errors:");
      ErrorLog (js "An error occurred: Invalid count value: "
                  ++ integerToString (totalWidthOf narrowTerminal - 4))]).
Proof.
  apply (narrow_terminal_table warningEnv narrowTerminal (js "schema.xsd")
           (js "doc.xml") [] emptyWorld warningStderr (None, warningStderr)
           [ {| file := js "doc.xml"; line := Exact 3;
                message := js "namespace warning : xmlns: URI x is not absolute" |} ]);
    try discriminate; reflexivity.
Defined.
